(** * Katzenpost client: retransmission queue, send pipeline and ACK handling

    A shallow embedding of the Go sources

      - [session/send.go]: package [session], [Message], [doSend],
        [WaitForReply], [SendMessage] and the other send operations;
      - [queue.go], the second file of [constants/constants.go]: package
        [session], the delay queue [TimerQ];
      - [session.go], the second file of [proxy/fetch.go]: package
        [client], the callbacks [onMessage], [AddSURBKeys] and [onACK].

    Conventions of the embedding.

      - A Go pointer [*Message] or [*sync.Mutex] is an address ([positive])
        into an explicit store; aliasing is therefore visible.
      - A Go [error] is [option error], [None] being [nil].
      - A run-time panic (nil dereference, failed type assertion, explicit
        [panic]) is the [Panic] outcome.
      - [time.Time] is an integer number of nanoseconds since the Unix
        epoch, [time.Duration] a 64-bit signed number of nanoseconds.
      - Randomness ([rand.Reader]), the clock ([time.Now]) and the answers
        of the transport are explicit inputs of the operations.
      - Every operation is one atomic step: the mutexes that protect the
        maps and the heap of the priority queue are held for the whole of
        the mutation in the source. *)

From Stdlib Require Import ZArith Lia List Sorted.
From stdpp Require Import base option gmap list strings.

Open Scope Z_scope.

(** ** Run-time outcomes *)

Definition error := string.

Inductive outcome (A : Type) : Type :=
| Ret (a : A)
| Panic (why : string).
Arguments Ret {A} a.
Arguments Panic {A} why.

Definition obind {A B} (x : outcome A) (f : A -> outcome B) : outcome B :=
  match x with
  | Ret a => f a
  | Panic w => Panic w
  end.

#[global] Instance outcome_bind : MBind outcome := fun A B f x => obind x f.
#[global] Instance outcome_ret : MRet outcome := fun A a => Ret a.

Definition nil_deref : string := "invalid memory address or nil pointer dereference".

(** ** Machine integers *)

(** [int], [int64] and [time.Duration] arithmetic wraps around. *)
Definition wrap64 (z : Z) : Z := (z + 2 ^ 63) mod 2 ^ 64 - 2 ^ 63.

(** The conversion [uint64(x)]. *)
Definition uint64 (z : Z) : Z := z mod 2 ^ 64.

(** [Time.Sub] saturates at the extreme durations. *)
Definition clamp64 (z : Z) : Z := Z.max (- 2 ^ 63) (Z.min (2 ^ 63 - 1) z).

Definition Time_Add (t d : Z) : Z := t + d.
Definition Time_Sub (t u : Z) : Z := clamp64 (t - u).
Definition Time_UnixNano (t : Z) : Z := wrap64 t.

(** ** Package session: messages *)

Abbreviation ptr := positive (only parsing).
Abbreviation bytes := (list Z) (only parsing).

(** [var maxTransmissions = 3] *)
Definition maxTransmissions : Z := 3.

Record Message : Type := mkMessage {
  ID : option bytes;            (* *[MessageIDLength]byte *)
  Recipient : string;
  Provider : string;
  Payload : bytes;
  SentAt : Z;
  ReplyETA : Z;
  SURBID : option bytes;        (* *[SURBIDLength]byte *)
  Key : bytes;
  Reply : bytes;
  SURBType : Z;
  Reliable : bool;
  Transmissions : Z
}.

(** [uint64(m.SentAt.Add(m.ReplyETA/2).Add(time.Duration(m.Transmissions+1)*m.ReplyETA).UnixNano())] *)
Definition expiry (m : Message) : Z :=
  uint64 (Time_UnixNano
            (Time_Add (Time_Add (SentAt m) (Z.quot (ReplyETA m) 2))
                      (wrap64 (wrap64 (Transmissions m + 1) * ReplyETA m)))).

(** [m.SentAt.Add(m.ReplyETA).Sub(time.Now())] *)
Definition timeLeft (m : Message) (now : Z) : Z :=
  Time_Sub (Time_Add (SentAt m) (ReplyETA m)) now.

(** ** The priority queue of [katzenpost/core/queue]

    The library is not part of this repository.  Its contract is that of a
    min-heap on a [uint64] priority: [Peek] and [Pop] give an entry of least
    priority.  The model keeps the entries sorted; among equal priorities it
    serves the oldest first (the heap leaves that order open, and nothing
    below depends on it). *)

Record Entry : Type := mkEntry { Priority : Z; Value : positive }.

Fixpoint Enqueue (priority : Z) (value : positive) (q : list Entry) : list Entry :=
  match q with
  | [] => [mkEntry priority value]
  | e :: q' =>
      if priority <? Priority e
      then mkEntry priority value :: e :: q'
      else e :: Enqueue priority value q'
  end.

Definition Peek (q : list Entry) : option Entry := head q.

Definition Pop (q : list Entry) : option Entry * list Entry := (head q, tail q).

Definition Len (q : list Entry) : Z := Z.of_nat (length q).

(** [Remove(priority)] takes out an entry of that priority and gives its
    value, or [nil] when there is none. *)
Fixpoint PQ_Remove (priority : Z) (q : list Entry) : option positive * list Entry :=
  match q with
  | [] => (None, [])
  | e :: q' =>
      if Priority e =? priority then (Some (Value e), q')
      else let '(r, q'') := PQ_Remove priority q' in (r, e :: q'')
  end.

(** ** Package session: the delay queue [TimerQ] *)

(** [type nqueue interface { Push(m) error }] *)
Class nqueue (Q : Type) : Type :=
  nq_Push : Q -> positive -> Q * option error.

Record TimerQ (Q : Type) : Type := mkTimerQ {
  priq : list Entry;
  nextQ : Q;
  signals : nat                (* number of [Signal()] calls so far *)
}.
Arguments mkTimerQ {Q}.
Arguments priq {Q}.
Arguments nextQ {Q}.
Arguments signals {Q}.

Section TimerQ.
Context {Q : Type} `{!nqueue Q}.

(** The messages the queue points to live in the store [h]. *)
Variable h : gmap positive Message.

Definition Signal (a : TimerQ Q) : TimerQ Q :=
  mkTimerQ (priq a) (nextQ a) (S (signals a)).

Definition set_priq (q : list Entry) (a : TimerQ Q) : TimerQ Q :=
  mkTimerQ q (nextQ a) (signals a).

Definition Push (m : positive) (a : TimerQ Q) : outcome (TimerQ Q) :=
  match h !! m with
  | None => Panic nil_deref
  | Some msg => Ret (Signal (set_priq (Enqueue (expiry msg) m (priq a)) a))
  end.

(** The [else] belongs to the outer [if]: it runs only when [Peek] gave
    [nil], that is on an empty queue.  In the [switch] the first case
    expression [m == mo.( *Message)] is evaluated first; the assertion
    panics on a nil interface.  For a non-nil [mo] the case values are a
    [bool] and [nil], neither equal to [mo], so [default] runs. *)
Definition Remove (m : positive) (a : TimerQ Q) : outcome (TimerQ Q * option error) :=
  match Peek (priq a) with
  | Some mo =>
      if decide (Value mo = m) then
        let a' := set_priq (snd (Pop (priq a))) a in
        if 0 <? Len (priq a') then Ret (Signal a', None) else Ret (a', None)
      else Ret (a, None)
  | None =>
      match h !! m with
      | None => Panic nil_deref
      | Some msg =>
          let '(mo, q') := PQ_Remove (expiry msg) (priq a) in
          match mo with
          | None => Panic "interface conversion: interface is nil, not *session.Message"
          | Some _ => Ret (set_priq q' a, Some "Failed to remove")
          end
      end
  end.

Definition forward (a : TimerQ Q) : outcome (TimerQ Q) :=
  let '(m, q') := Pop (priq a) in
  match m with
  | None => Ret (set_priq q' a)
  | Some e =>
      let '(nq, err) := nq_Push (nextQ a) (Value e) in
      match err with
      | Some er => Panic er
      | None => Ret (mkTimerQ q' nq (signals a))
      end
  end.

(** What the [select] of one loop iteration receives. *)
Inductive select_event : Type := HaltCh | TimerCh | WakeupCh.

Inductive loop_ctl (A : Type) : Type :=
| Continue (a : A)
| Return (a : A).

(** One iteration of [for { ... }] in [worker], at clock reading [now].
    With an empty queue [c] stays [nil] and can never be received from:
    a [TimerCh] offered then leaves the iteration where it is. *)
Definition worker_iter (now : Z) (ev : select_event) (a : TimerQ Q)
  : outcome (loop_ctl (TimerQ Q)) :=
  match Peek (priq a) with
  | Some m =>
      match h !! Value m with
      | None => Panic nil_deref
      | Some msg =>
          let tl := timeLeft msg now in
          if tl <? 0 then
            a' ← forward a; Ret (Continue _ a')
          else
            match ev with
            | HaltCh => Ret (Return _ a)
            | TimerCh => a' ← forward a; Ret (Continue _ a')
            | WakeupCh => Ret (Continue _ a)
            end
      end
  | None =>
      match ev with
      | HaltCh => Ret (Return _ a)
      | TimerCh => Ret (Continue _ a)
      | WakeupCh => Ret (Continue _ a)
      end
  end.

(** The worker loop over a schedule of clock readings and events; it
    stops at [HaltCh], at a panic, or when the schedule is used up. *)
Fixpoint worker (sched : list (Z * select_event)) (a : TimerQ Q)
  : outcome (TimerQ Q) :=
  match sched with
  | [] => Ret a
  | (now, ev) :: sched' =>
      match worker_iter now ev a with
      | Panic w => Panic w
      | Ret (Return _ a') => Ret a'
      | Ret (Continue _ a') => worker sched' a'
      end
  end.

End TimerQ.

(** ** Package session: the session and the send pipeline *)

(** The egress queue ([s.egressQueue]) is used through [Peek], [Pop] and
    [Push], each of which may report an error. *)
Class egress (E : Type) : Type := {
  eg_Peek : E -> option positive * option error;
  eg_Pop : E -> E * (option positive * option error);
  eg_Push : E -> positive -> E * option error
}.

(** The fields of [Session] that [send.go] uses, with the two stores the
    pointers of the maps refer to. *)
Record Session (Q E : Type) : Type := mkSession {
  heap : gmap positive Message;           (* the [Message] objects *)
  mutexes : gmap positive bool;           (* the [sync.Mutex] objects, [true] = locked *)
  nextptr : positive;                     (* next address handed out by [new] *)
  replyNotifyMap : gmap (list Z) positive;
  messageIDMap : gmap (list Z) positive;
  surbIDMap : gmap (list Z) positive;
  tq : TimerQ Q;
  egressQueue : E;
  log : list string
}.
Arguments mkSession {Q E}.
Arguments heap {Q E}.
Arguments mutexes {Q E}.
Arguments nextptr {Q E}.
Arguments replyNotifyMap {Q E}.
Arguments messageIDMap {Q E}.
Arguments surbIDMap {Q E}.
Arguments tq {Q E}.
Arguments egressQueue {Q E}.
Arguments log {Q E}.

(** The result of a blocking call. *)
Inductive wait_result (S A : Type) : Type :=
| WaitFault (why : string)
| WaitBlocked
| WaitReturned (s : S) (a : A).
Arguments WaitFault {S A} why.
Arguments WaitBlocked {S A}.
Arguments WaitReturned {S A} s a.

Section Send.
Context {Q E : Type} `{!nqueue Q} `{!egress E}.

(** Constants of [katzenpost/core/constants] and of the client's
    [constants] package that the file refers to. *)
Variable UserForwardPayloadLength : nat.
Variable SurbTypeKaetzchen SurbTypeACK : Z.

Abbreviation Sess := (Session Q E).

Definition logf (line : string) (s : Sess) : Sess :=
  mkSession (heap s) (mutexes s) (nextptr s) (replyNotifyMap s)
            (messageIDMap s) (surbIDMap s) (tq s) (egressQueue s)
            (log s ++ [line]).

(** [WaitForReply]: the mutex found in [replyNotifyMap] is locked; the
    zero value of the map, a nil [*sync.Mutex], faults in [Lock]. A held
    mutex suspends the caller. *)
Definition WaitForReply (msgId : option (list Z)) (s : Sess)
  : wait_result Sess (list Z) :=
  match msgId with
  | None => WaitFault nil_deref
  | Some id =>
      let s := logf "WaitForReply message ID: %x" s in
      match replyNotifyMap s !! id with
      | None => WaitFault nil_deref
      | Some replyLock =>
          match mutexes s !! replyLock with
          | None => WaitFault nil_deref
          | Some true => WaitBlocked
          | Some false =>
              let s := mkSession (heap s) (<[replyLock := true]> (mutexes s))
                                 (nextptr s) (replyNotifyMap s) (messageIDMap s)
                                 (surbIDMap s) (tq s) (egressQueue s) (log s) in
              match messageIDMap s !! id with
              | None => WaitFault nil_deref
              | Some p =>
                  match heap s !! p with
                  | None => WaitFault nil_deref
                  | Some m => WaitReturned s (Reply m)
                  end
              end
          end
      end
  end.

(** The guard at the head of [doSend]. *)
Definition gives_up (m : Message) : bool :=
  (0 <? Transmissions m) && (maxTransmissions <=? Transmissions m).

(** The fields [doSend] writes after a successful [SendCiphertext]. *)
Definition sent (key : list Z) (now eta : Z) (m : Message) : Message :=
  mkMessage (ID m) (Recipient m) (Provider m) (Payload m)
            now eta (SURBID m) key (Reply m) (SURBType m) (Reliable m)
            (wrap64 (Transmissions m + 1)).

(** [doSend]. [surbID] is the identifier read from [rand.Reader], [tx]
    what [SendCiphertext] answers, [now] the reading of [time.Now]. *)
Definition doSend (surbID : list Z) (tx : list Z * Z * option error) (now : Z)
    (msg : positive) (s : Sess) : outcome (Sess * option error) :=
  match heap s !! msg with
  | None => Panic nil_deref
  | Some m =>
      if gives_up m then Ret (s, None)
      else
        let '(key, eta, err) := tx in
        match err with
        | Some e => Ret (s, Some e)
        | None =>
            let m' := sent key now eta m in
            let h' := <[msg := m']> (heap s) in
            tq' ← (if Reliable m' then Push h' msg (tq s) else Ret (tq s));
            Ret (mkSession h' (mutexes s) (nextptr s) (replyNotifyMap s)
                           (messageIDMap s) (<[surbID := msg]> (surbIDMap s))
                           tq' (egressQueue s) (log s), None)
        end
  end.

Definition set_egress (e : E) (s : Sess) : Sess :=
  mkSession (heap s) (mutexes s) (nextptr s) (replyNotifyMap s)
            (messageIDMap s) (surbIDMap s) (tq s) e (log s).

Definition sendNext (surbID : list Z) (tx : list Z * Z * option error) (now : Z)
    (s : Sess) : outcome (Sess * option error) :=
  match eg_Peek (egressQueue s) with
  | (_, Some err) => Ret (s, Some err)
  | (None, None) => Panic nil_deref
  | (Some msg, None) =>
      match heap s !! msg with
      | None => Panic nil_deref
      | Some m =>
          if decide (Provider m = "") then Panic "Provider cannot be empty string"
          else
            r ← doSend surbID tx now msg s;
            match r with
            | (s', Some err) => Ret (s', Some err)
            | (s', None) =>
                let '(e', (_, err)) := eg_Pop (egressQueue s') in
                Ret (set_egress e' s', err)
            end
      end
  end.

(** [msg := &Message{...}]: the new object gets the next address. *)
Definition alloc_msg (m : Message) (s : Sess) : positive * Sess :=
  (nextptr s,
   mkSession (<[nextptr s := m]> (heap s)) (mutexes s) (Pos.succ (nextptr s))
             (replyNotifyMap s) (messageIDMap s) (surbIDMap s) (tq s)
             (egressQueue s) (log s)).

(** [sendLoopDecoy]; [svc] is what [GetService("loop")] answers (name and
    provider of the service, or an error), [id] the random identifier. *)
Definition sendLoopDecoy (svc : string * string * option error) (id : list Z)
    (surbID : list Z) (tx : list Z * Z * option error) (now : Z) (s : Sess)
  : outcome (Sess * option error) :=
  let s := logf "sending loop decoy" s in
  let '(name, provider, err) := svc in
  match err with
  | Some e => Ret (s, Some e)
  | None =>
      let payload := replicate UserForwardPayloadLength 0 in
      let m := mkMessage (Some id) name provider payload 0 0 None [] [] 0 false 0 in
      let '(p, s) := alloc_msg m s in
      doSend surbID tx now p s
  end.

(** [copy(payload, message)] into a zeroed buffer of the full length. *)
Definition pad (n : nat) (message : list Z) : list Z :=
  take n message ++ replicate (n - length message) 0.

Definition composeMessage (recipient provider : string) (message : list Z)
    (query : bool) (id : list Z) (s : Sess) : Sess * option Message * option error :=
  let s := logf "SendMessage" s in
  if (UserForwardPayloadLength <? length message)%nat
  then (s, None, Some "invalid message size: %v")
  else
    let payload := pad UserForwardPayloadLength message in
    (s, Some (mkMessage (Some id) recipient provider payload 0 0 None [] [] 
                        (if query then SurbTypeKaetzchen else SurbTypeACK)
                        false 0), None).

Definition set_reliable (b : bool) (m : Message) : Message :=
  mkMessage (ID m) (Recipient m) (Provider m) (Payload m) (SentAt m)
            (ReplyETA m) (SURBID m) (Key m) (Reply m) (SURBType m) b
            (Transmissions m).

(** [SendMessage]: a fresh mutex is stored under the message identifier
    and locked, then the message is registered and queued. *)
Definition SendMessage (recipient provider : string) (message : list Z)
    (reliable query : bool) (id : list Z) (s : Sess)
  : outcome (Sess * option (list Z) * option error) :=
  match composeMessage recipient provider message query id s with
  | (s, _, Some err) => Ret (s, None, Some err)
  | (s, None, None) => Panic nil_deref
  | (s, Some msg, None) =>
      let msg := set_reliable reliable msg in
      let '(p, s) := alloc_msg msg s in
      match ID msg with
      | None => Panic nil_deref
      | Some mid =>
          let lk := nextptr s in
          let s := mkSession (heap s) (<[lk := true]> (mutexes s))
                             (Pos.succ lk)
                             (<[mid := lk]> (replyNotifyMap s))
                             (<[mid := p]> (messageIDMap s))
                             (surbIDMap s) (tq s) (egressQueue s) (log s) in
          let '(e', err) := eg_Push (egressQueue s) p in
          let s := set_egress e' s in
          match err with
          | Some er => Ret (s, None, Some er)
          | None => Ret (s, ID msg, None)
          end
      end
  end.

Definition SendUnreliableQuery (recipient provider : string) (message : list Z) :=
  SendMessage recipient provider message false true.

Definition SendReliableQuery (recipient provider : string) (message : list Z) :=
  SendMessage recipient provider message true true.

End Send.

(** ** Concrete collaborators

    A first-in first-out queue of bounded capacity stands for the egress
    queue and for the queue downstream of [TimerQ]: [Push] fails when the
    queue is full, [Peek] and [Pop] fail when it is empty. *)

Record fifo : Type := mkFifo { capacity : nat; items : list positive }.

Definition fifo_push (q : fifo) (m : positive) : fifo * option error :=
  if (length (items q) <? capacity q)%nat
  then (mkFifo (capacity q) (items q ++ [m]), None)
  else (q, Some "queue is full").

#[global] Instance fifo_nqueue : nqueue fifo := fifo_push.

#[global] Instance fifo_egress : egress fifo := {
  eg_Peek q :=
    match items q with
    | [] => (None, Some "queue is empty")
    | m :: _ => (Some m, None)
    end;
  eg_Pop q :=
    match items q with
    | [] => (q, (None, Some "queue is empty"))
    | m :: rest => (mkFifo (capacity q) rest, (Some m, None))
    end;
  eg_Push := fifo_push
}.

(** A session that has not sent anything yet. *)
Definition new_session (cap : nat) : Session fifo fifo :=
  mkSession ∅ ∅ 1%positive ∅ ∅ ∅ (mkTimerQ [] (mkFifo cap []) 0%nat)
            (mkFifo cap []) [].

(** ** Reachable sessions *)

Section Reachable.
Context {Q E : Type} `{!nqueue Q} `{!egress E}.
Variable UserForwardPayloadLength : nat.
Variable SurbTypeKaetzchen SurbTypeACK : Z.

Abbreviation Sess := (Session Q E).

Definition set_tq (a : TimerQ Q) (s : Sess) : Sess :=
  mkSession (heap s) (mutexes s) (nextptr s) (replyNotifyMap s)
            (messageIDMap s) (surbIDMap s) a (egressQueue s) (log s).

(** The sessions that arise from one without messages through the
    operations of [send.go] and of the delay queue, whatever the random
    identifiers, the clock and the collaborators answer. *)
Inductive reachable : Sess -> Prop :=
| reach_new s :
    heap s = ∅ -> reachable s
| reach_SendMessage s recipient provider message reliable query id s' r e :
    reachable s ->
    SendMessage UserForwardPayloadLength SurbTypeKaetzchen SurbTypeACK
                recipient provider message reliable query id s = Ret (s', r, e) ->
    reachable s'
| reach_sendNext s surbID tx now s' e :
    reachable s -> sendNext surbID tx now s = Ret (s', e) -> reachable s'
| reach_doSend s surbID tx now msg s' e :
    reachable s -> doSend surbID tx now msg s = Ret (s', e) -> reachable s'
| reach_sendLoopDecoy s svc id surbID tx now s' e :
    reachable s ->
    sendLoopDecoy UserForwardPayloadLength svc id surbID tx now s = Ret (s', e) ->
    reachable s'
| reach_WaitForReply s msgId s' reply :
    reachable s -> WaitForReply msgId s = WaitReturned s' reply -> reachable s'
| reach_worker s now ev a' :
    reachable s ->
    worker_iter (heap s) now ev (tq s) = Ret a' ->
    reachable (set_tq (match a' with Continue _ a => a | Return _ a => a end) s)
| reach_Remove s m a' e :
    reachable s -> Remove (heap s) m (tq s) = Ret (a', e) ->
    reachable (set_tq a' s).

(** The bound on the transmission counter of every message of a session. *)
Definition transmissions_bounded (s : Sess) : Prop :=
  forall p m, heap s !! p = Some m ->
    0 <= Transmissions m <= maxTransmissions.

End Reachable.

(** ** Package client: inbound messages and acknowledgements *)

Module block.
(** A decrypted block of [minclient/block]. *)
Record Block : Type := mkBlock {
  MessageID : list Z;
  TotalBlocks : Z;
  BlockID : Z;
  Payload : list Z
}.
End block.

Module Client.

(** [const IngressBlockVersion = 0] *)
Definition IngressBlockVersion : Z := 0.

(** [utils.CtIsZero]: every byte is zero. *)
Definition CtIsZero (b : list Z) : bool := forallb (Z.eqb 0) b.

(** The cryptographic and serialization collaborators: [ecdh.PublicKey],
    [block.Block], [block.DecryptBlock] (with the identity key of the
    session) and [sphinx.DecryptSURBPayload]. *)
Class Crypto (PK : Type) : Type := {
  PublicKeySize : nat;
  pk_MarshalBinary : PK -> list Z * option error;
  pk_FromBytes : list Z -> PK * option error;
  block_ToBytes : block.Block -> list Z * option error;
  block_FromBytes : list Z -> block.Block * option error;
  DecryptBlock : list Z -> block.Block * PK + error;
  DecryptSURBPayload : list Z -> list Z -> list Z * option error
}.

Record IngressBlock (PK : Type) : Type := mkIngressBlock {
  Version : Z;
  SenderPubKey : PK;
  Block : block.Block
}.
Arguments mkIngressBlock {PK}.
Arguments Version {PK}.
Arguments SenderPubKey {PK}.
Arguments Block {PK}.

Record EgressBlock : Type := mkEgressBlock {
  ReliableSend : bool;
  Recipient : string;
  Provider : string;
  BlockID : Z;
  MessageID : option (list Z);
  Payload : list Z;
  Expiration : Z;
  SURBID : option (list Z);
  SURBKeys : list Z
}.

(** [type Storage interface] *)
Class Storage (St : Type) : Type := {
  GetIngressBlocks : St -> list Z -> St * (list (list Z) * option error);
  PutIngressBlock : St -> list Z -> list Z -> St * option error;
  PutEgressBlock : St -> list Z -> EgressBlock -> St * option error;
  st_AddSURBKeys : St -> list Z -> EgressBlock -> St * option error;
  RemoveSURBKey : St -> list Z -> St * option error
}.

(** [type MessageConsumer interface] *)
Class MessageConsumer (C PK : Type) : Type := {
  ReceivedMessage : C -> PK -> list Z -> C;
  ReceivedACK : C -> list Z -> C
}.

(** The one method of the retransmission scheduler that [onACK] calls. *)
Class ARQScheduler (A : Type) : Type :=
  CancelRetransmission : A -> list Z -> A * option error.

(** The fields of [Session] that the three callbacks use. *)
Record Session (St C A : Type) : Type := mkSession {
  storage : St;                        (* [cfg.Storage] *)
  messageConsumer : C;
  log : list string;
  surbKeyMap : gmap (list Z) (list Z);
  arqScheduler : A
}.
Arguments mkSession {St C A}.
Arguments storage {St C A}.
Arguments messageConsumer {St C A}.
Arguments log {St C A}.
Arguments surbKeyMap {St C A}.
Arguments arqScheduler {St C A}.

Section Callbacks.
Context {PK St C A : Type}.
Context `{!Crypto PK} `{!Storage St} `{!MessageConsumer C PK} `{!ARQScheduler A}.

(** [reassemble] is called by [onMessage] and defined elsewhere in the
    package. *)
Variable reassemble : list (IngressBlock PK) -> list Z * option error.

Abbreviation Sess := (Session St C A).

Definition logf (line : string) (s : Sess) : Sess :=
  mkSession (storage s) (messageConsumer s) (log s ++ [line])
            (surbKeyMap s) (arqScheduler s).

Definition set_storage (st : St) (s : Sess) : Sess :=
  mkSession st (messageConsumer s) (log s) (surbKeyMap s) (arqScheduler s).

Definition set_consumer (c : C) (s : Sess) : Sess :=
  mkSession (storage s) c (log s) (surbKeyMap s) (arqScheduler s).

Definition set_surbKeyMap (m : gmap (list Z) (list Z)) (s : Sess) : Sess :=
  mkSession (storage s) (messageConsumer s) (log s) m (arqScheduler s).

Definition set_arq (a : A) (s : Sess) : Sess :=
  mkSession (storage s) (messageConsumer s) (log s) (surbKeyMap s) a.

(** [IngressBlock.ToBytes] *)
Definition ToBytes (i : IngressBlock PK) : list Z * option error :=
  let raw := [IngressBlockVersion] in
  match pk_MarshalBinary (SenderPubKey i) with
  | (_, Some err) => ([], Some err)
  | (rawSenderPubKey, None) =>
      let raw := raw ++ rawSenderPubKey in
      match block_ToBytes (Block i) with
      | (_, Some err) => ([], Some err)
      | (rawBlock, None) => (raw ++ rawBlock, None)
      end
  end.

(** [IngressBlock.FromBytes]: the version test builds an error and
    drops it; indexing and slicing a short buffer panic (the capacity
    of the slice is taken to be its length).  A failed call leaves no
    block behind. *)
Definition FromBytes (raw : list Z) : outcome (IngressBlock PK + error) :=
  match raw with
  | [] => Panic "index out of range"
  | v :: _ =>
      if (length raw <? S PublicKeySize)%nat then Panic "slice bounds out of range"
      else
        match pk_FromBytes (take PublicKeySize (drop 1 raw)) with
        | (_, Some err) => Ret (inr err)
        | (pubKey, None) =>
            match block_FromBytes (drop (S PublicKeySize) raw) with
            | (_, Some err) => Ret (inr err)
            | (b, None) => Ret (inl (mkIngressBlock v pubKey b))
            end
        end
  end.

(** The loop of [onMessage] over the raw blocks: the first failure
    ends it. *)
Fixpoint decode_all (rawBlocks : list (list Z))
  : outcome (list (IngressBlock PK) + error) :=
  match rawBlocks with
  | [] => Ret (inl [])
  | b :: rest =>
      r ← FromBytes b;
      match r with
      | inr err => Ret (inr err)
      | inl ib =>
          rs ← decode_all rest;
          match rs with
          | inr err => Ret (inr err)
          | inl ibs => Ret (inl (ib :: ibs))
          end
      end
  end.

Definition notify (senderPubKey : PK) (message : list Z) (s : Sess) : Sess :=
  set_consumer (ReceivedMessage (messageConsumer s) senderPubKey message) s.

(** [onMessage].  After a failed [reassemble] the block is stored, and
    unless storing fails control falls through to [ReceivedMessage]. *)
Definition onMessage (ciphertextBlock : list Z) (s : Sess)
  : outcome (Sess * option error) :=
  let s := logf "OnMessage" s in
  match DecryptBlock ciphertextBlock with
  | inr err => Ret (s, Some err)
  | inl (rBlock, senderPubKey) =>
      if block.TotalBlocks rBlock =? 1 then
        Ret (notify senderPubKey (block.Payload rBlock) s, None)
      else
        let ingressBlock := mkIngressBlock 0 senderPubKey rBlock in
        let '(st, (rawStoredBlocks, err)) :=
          GetIngressBlocks (storage s) (block.MessageID rBlock) in
        let s := set_storage st s in
        match err with
        | Some e => Ret (s, Some e)
        | None =>
            match ToBytes ingressBlock with
            | (_, Some e) => Ret (s, Some e)
            | (rawBlock, None) =>
                let rawBlocks := rawStoredBlocks ++ [rawBlock] in
                r ← decode_all rawBlocks;
                match r with
                | inr e => Ret (s, Some e)
                | inl ingressBlocks =>
                    let '(message, err) := reassemble ingressBlocks in
                    let '(s, early) :=
                      match err with
                      | None => (s, None)
                      | Some _ =>
                          let '(st, err) :=
                            PutIngressBlock (storage s)
                              (block.MessageID (Block ingressBlock)) rawBlock in
                          (set_storage st s, err)
                      end in
                    match early with
                    | Some e => Ret (s, Some e)
                    | None => Ret (notify senderPubKey message s, None)
                    end
                end
            end
        end
  end.

(** [AddSURBKeys]: the identifier looked up is the one stored in the
    manifest, the identifier written is the argument. *)
Definition AddSURBKeys (surbid : list Z) (surbKeyManifest : EgressBlock)
    (s : Sess) : outcome (Sess * option error) :=
  match SURBID surbKeyManifest with
  | None => Panic nil_deref
  | Some mid =>
      match surbKeyMap s !! mid with
      | Some _ =>
          Ret (logf "failure: SURB ID already present in surbKeyMap" s,
               Some "failure: SURB ID already present in surbKeyMap")
      | None =>
          let s := set_surbKeyMap (<[surbid := SURBKeys surbKeyManifest]> (surbKeyMap s)) s in
          let '(st, err) := st_AddSURBKeys (storage s) surbid surbKeyManifest in
          Ret (set_storage st s, err)
      end
  end.

(** [onACK] *)
Definition onACK (surbid : list Z) (message : list Z) (s : Sess)
  : Sess * option error :=
  let s := logf "OnACK" s in
  match surbKeyMap s !! surbid with
  | None => (logf "failure: SURB key not found for received ACK" s, None)
  | Some surbKeys =>
      let s := set_surbKeyMap (delete surbid (surbKeyMap s)) s in
      let '(st, err) := RemoveSURBKey (storage s) surbid in
      let s := set_storage st s in
      match err with
      | Some _ => (logf "failure: failure to remove SURB key: %s" s, None)
      | None =>
          match DecryptSURBPayload message surbKeys with
          | (_, Some _) =>
              (logf "failure: ACK SURB replay message decrypt error: %s" s, None)
          | (plaintext, None) =>
              if negb (CtIsZero plaintext) then
                (logf "failure: decrypted ACK payload is not all 0x00" s, None)
              else
                let '(a, err) := CancelRetransmission (arqScheduler s) surbid in
                let s := set_arq a s in
                match err with
                | Some _ =>
                    (logf "failure: retransmission cancellation error: %s" s, None)
                | None => (s, None)
                end
          end
      end
  end.

(** The three tests an acknowledgement passes before [onACK] asks for
    the retransmission to be cancelled. *)
Definition ack_accepted (surbid message surbKeys : list Z) (s : Sess) : bool :=
  match RemoveSURBKey (storage s) surbid with
  | (_, Some _) => false
  | (_, None) =>
      match DecryptSURBPayload message surbKeys with
      | (_, Some _) => false
      | (plaintext, None) => CtIsZero plaintext
      end
  end.

End Callbacks.


(** *** Reassembly *)

(** Modelled from the spec: [reassemble] is called by [onMessage] but is
    not among the sources.  Reassembly succeeds only when fragments for
    every index [0..totalBlocks-1] are present, at which point the blocks
    are concatenated in index order; missing fragments are reported as an
    error, with no message. *)
Definition reassemble_spec {PK : Type} (blocks : list (IngressBlock PK))
  : list Z * option error :=
  match blocks with
  | [] => ([], Some "missing fragments")
  | b :: _ =>
      let total := Z.to_nat (block.TotalBlocks (Block b)) in
      let at_index (i : nat) :=
        find (fun x => block.BlockID (Block x) =? Z.of_nat i) blocks in
      match mapM at_index (seq 0 total) with
      | Some parts => (concat (map (fun x => block.Payload (Block x)) parts), None)
      | None => ([], Some "missing fragments")
      end
  end.

(** *** Concrete collaborators *)

(** A storage kept in memory; a [broken] one fails every operation. *)
Record mem_storage : Type := mkMem {
  ingress : gmap (list Z) (list (list Z));
  surbs : gmap (list Z) (list Z);
  broken : bool
}.

#[global] Instance mem_Storage : Storage mem_storage := {
  GetIngressBlocks st mid :=
    if broken st then (st, ([], Some "storage failure"))
    else (st, (default [] (ingress st !! mid), None));
  PutIngressBlock st mid raw :=
    if broken st then (st, Some "storage failure")
    else (mkMem (<[mid := default [] (ingress st !! mid) ++ [raw]]> (ingress st))
                (surbs st) (broken st), None);
  PutEgressBlock st mid b :=
    if broken st then (st, Some "storage failure") else (st, None);
  st_AddSURBKeys st surbid b :=
    if broken st then (st, Some "storage failure")
    else (mkMem (ingress st) (<[surbid := SURBKeys b]> (surbs st)) (broken st), None);
  RemoveSURBKey st surbid :=
    if broken st then (st, Some "storage failure")
    else (mkMem (ingress st) (delete surbid (surbs st)) (broken st), None)
}.

(** A consumer that records what it is told. *)
Inductive notification (PK : Type) : Type :=
| GotMessage (senderPubKey : PK) (message : list Z)
| GotACK (messageID : list Z).
Arguments GotMessage {PK}.
Arguments GotACK {PK}.

#[global] Instance trace_Consumer (PK : Type) : MessageConsumer (list (notification PK)) PK := {
  ReceivedMessage c k m := c ++ [GotMessage k m];
  ReceivedACK c mid := c ++ [GotACK mid]
}.

(** Modelled from the spec: the scheduler behind [CancelRetransmission]
    is not among the sources.  It keeps the identifiers with a pending
    retransmission; a valid acknowledgement cancels the pending
    retransmission, and cancelling one that is not pending is an error. *)
Record arq : Type := mkArq { pending : list (list Z) }.

#[global] Instance arq_ARQScheduler : ARQScheduler arq := fun a surbid =>
  if bool_decide (surbid ∈ pending a)
  then (mkArq (filter (fun x => x ≠ surbid) (pending a)), None)
  else (a, Some "no such retransmission").

(** Stand-ins for the cryptography: a public key is two bytes, a block is
    written as the length of its identifier, the identifier, the two
    counters and the payload, a ciphertext block is the sender key
    followed by the block, and a SURB payload is masked by its key. *)
Definition toy_block_FromBytes (raw : list Z) : block.Block * option error :=
  match raw with
  | [] => (block.mkBlock [] 0 0 [], Some "short block")
  | n :: rest =>
      match drop (Z.to_nat n) rest with
      | total :: idx :: payload =>
          (block.mkBlock (take (Z.to_nat n) rest) total idx payload, None)
      | _ => (block.mkBlock [] 0 0 [], Some "short block")
      end
  end.

#[global] Instance toy_Crypto : Crypto (list Z) := {
  PublicKeySize := 2;
  pk_MarshalBinary k :=
    if (length k =? 2)%nat then (k, None) else ([], Some "bad public key");
  pk_FromBytes raw :=
    if (length raw =? 2)%nat then (raw, None) else ([], Some "bad public key");
  block_ToBytes b :=
    (Z.of_nat (length (block.MessageID b)) :: block.MessageID b
       ++ [block.TotalBlocks b; block.BlockID b] ++ block.Payload b, None);
  block_FromBytes := toy_block_FromBytes;
  DecryptBlock ct :=
    if (length ct <? 2)%nat then inr "decrypt failure"
    else match toy_block_FromBytes (drop 2 ct) with
         | (b, None) => inl (b, take 2 ct)
         | (_, Some e) => inr e
         end;
  DecryptSURBPayload payload keys :=
    if (length payload =? length keys)%nat
    then (zip_with Z.lxor payload keys, None)
    else ([], Some "decrypt failure")
}.

Definition toy_session (st : mem_storage) (keys : gmap (list Z) (list Z))
    (a : arq) : Session mem_storage (list (notification (list Z))) arq :=
  mkSession st [] [] keys a.

End Client.

(** ** Runs of the delay queue *)

Inductive tq_op : Type :=
| OpPush (m : positive)
| OpRemove (m : positive).

(** A sequence of [Push] and [Remove] calls; a [Remove] that reports an
    error does not stop the caller. *)
Fixpoint run_ops {Q : Type} `{!nqueue Q} (h : gmap positive Message)
    (ops : list tq_op) (a : TimerQ Q) : outcome (TimerQ Q) :=
  match ops with
  | [] => Ret a
  | OpPush m :: ops' => a' ← Push h m a; run_ops h ops' a'
  | OpRemove m :: ops' => r ← Remove h m a; run_ops h ops' (fst r)
  end.


(** ** Scenarios *)

Definition after {S R : Type} (dflt : S) (o : outcome (S * R)) : S :=
  match o with
  | Ret (s, _) => s
  | Panic _ => dflt
  end.

Definition returned {S R : Type} (o : outcome (S * R)) : outcome R :=
  match o with
  | Ret (_, r) => Ret r
  | Panic w => Panic w
  end.

Definition after_worker {Q E : Type} `{!nqueue Q} (now : Z) (ev : select_event)
    (s : Session Q E) : Session Q E :=
  match worker_iter (heap s) now ev (tq s) with
  | Ret (Continue _ a) => set_tq a s
  | Ret (Return _ a) => set_tq a s
  | Panic _ => s
  end.

Definition sec : Z := 1000000000.

(** One reliable query with a round trip estimated at two seconds, and no
    acknowledgement ever: the message is sent at 0s, handed back by the
    delay queue and sent again at 3s and at 6s, and handed back once more
    at 9s. *)
Definition demo0 : Session fifo fifo := new_session 4.

Definition demo1 : Session fifo fifo :=
  match SendMessage 8 1 0 "alice" "provider" [1; 2; 3] true true [42] demo0 with
  | Ret (s, _, _) => s
  | Panic _ => demo0
  end.

Definition demo2 : Session fifo fifo :=
  after demo1 (sendNext [100] ([7], 2 * sec, None) 0 demo1).

Definition demo2w : Session fifo fifo := after_worker (2 * sec + 1) WakeupCh demo2.

Definition demo3 : Session fifo fifo :=
  after demo2w (doSend [101] ([8], 2 * sec, None) (3 * sec) 1%positive demo2w).

Definition demo3w : Session fifo fifo := after_worker (5 * sec + 1) WakeupCh demo3.

Definition demo4 : Session fifo fifo :=
  after demo3w (doSend [102] ([9], 2 * sec, None) (6 * sec) 1%positive demo3w).

Definition demo4w : Session fifo fifo := after_worker (8 * sec + 1) WakeupCh demo4.

Definition demo_msg : Message :=
  mkMessage (Some [42]) "alice" "provider" [1; 2; 3; 0; 0; 0; 0; 0]
            (6 * sec) (2 * sec) None [9] [] 1 true 3.

(** Two messages for the delay queue: deadlines at 5s and at 10s. *)
Definition early_msg : Message :=
  mkMessage (Some [1]) "alice" "provider" [] 0 (2 * sec) None [] [] 0 true 1.

Definition late_msg : Message :=
  mkMessage (Some [2]) "bob" "provider" [] 0 (4 * sec) None [] [] 0 true 1.

Definition two_msgs : gmap positive Message :=
  <[2%positive := late_msg]> (<[1%positive := early_msg]> ∅).

Definition empty_tq (cap : nat) : TimerQ fifo := mkTimerQ [] (mkFifo cap []) 0%nat.

(** Client side: a three-block message [9] from the sender [7;7]. *)
Definition fragment (idx : Z) (payload : list Z) : list Z :=
  [7; 7] ++ [1; 9; 3; idx] ++ payload.

Definition client0 : Client.Session Client.mem_storage
                       (list (Client.notification (list Z))) Client.arq :=
  Client.toy_session (Client.mkMem ∅ ∅ false) ∅ (Client.mkArq []).

Definition deliver (ct : list Z)
    (s : Client.Session Client.mem_storage
           (list (Client.notification (list Z))) Client.arq) :=
  after s (Client.onMessage Client.reassemble_spec ct s).

(** Client side: the key [1;2] is registered for the SURB [5], whose
    retransmission is pending. *)
Definition acking (broken : bool) :=
  Client.toy_session (Client.mkMem ∅ {[ [5] := [1; 2] ]} broken)
                     {[ [5] := [1; 2] ]} (Client.mkArq [[5]]).

(** ** Further operations *)


Section Evolution.
Context {Q E : Type} `{!nqueue Q} `{!egress E}.
Variable UserForwardPayloadLength : nat.
Variable SurbTypeKaetzchen SurbTypeACK : Z.

(** One operation of [send.go] or of the delay queue on a session. *)
Inductive op_step : Session Q E -> Session Q E -> Prop :=
| step_SendMessage s recipient provider message reliable query id s' r e :
    SendMessage UserForwardPayloadLength SurbTypeKaetzchen SurbTypeACK
                recipient provider message reliable query id s = Ret (s', r, e) ->
    op_step s s'
| step_sendNext s surbID tx now s' e :
    sendNext surbID tx now s = Ret (s', e) -> op_step s s'
| step_doSend s surbID tx now msg s' e :
    doSend surbID tx now msg s = Ret (s', e) -> op_step s s'
| step_sendLoopDecoy s svc id surbID tx now s' e :
    sendLoopDecoy UserForwardPayloadLength svc id surbID tx now s = Ret (s', e) ->
    op_step s s'
| step_WaitForReply s msgId s' reply :
    WaitForReply msgId s = WaitReturned s' reply -> op_step s s'
| step_worker s now ev a' :
    worker_iter (heap s) now ev (tq s) = Ret a' ->
    op_step s (set_tq (match a' with Continue _ a => a | Return _ a => a end) s)
| step_Remove s m a' e :
    Remove (heap s) m (tq s) = Ret (a', e) -> op_step s (set_tq a' s).

(** Any number of operations. *)
Definition evolves : Session Q E -> Session Q E -> Prop := rtc op_step.

(** Every registered identifier has its mutex and its message. *)
Definition registered_ok (s : Session Q E) : Prop :=
  forall id lk, replyNotifyMap s !! id = Some lk ->
    is_Some (mutexes s !! lk) /\
    exists p, messageIDMap s !! id = Some p /\ is_Some (heap s !! p).

End Evolution.

(** ** Package client: sending *)

Module ClientSend.

(** [type UserKeyDiscovery interface]; the key it gives may be [nil]. *)
Class UserKeyDiscovery (PK : Type) : Type :=
  ukd_Get : string -> option PK * option error.

(** [block.EncryptMessage], with the identity key of the session: the
    ciphertext blocks of a message. *)
Class Encryptor (PK : Type) : Type :=
  EncryptMessage : list Z -> list Z -> option PK -> list (list Z) * option error.

(** The one method of the send queue that [Send] calls. *)
Class SendQueue (SQ : Type) : Type :=
  sq_Enqueue : SQ -> Client.EgressBlock -> SQ.

(** The session with its send queue. *)
Record Sending (St C A SQ : Type) : Type := mkSending {
  sess : Client.Session St C A;
  sendQueue : SQ
}.
Arguments mkSending {St C A SQ}.
Arguments sess {St C A SQ}.
Arguments sendQueue {St C A SQ}.

(** The zero [time.Time], in nanoseconds since the Unix epoch. *)
Definition zero_time : Z := - 62135596800 * 1000000000.

(** The conversion [uint16(x)]. *)
Definition uint16 (z : Z) : Z := z mod 2 ^ 16.

Section Sending.
Context {PK St C A SQ : Type}.
Context `{!Client.Storage St} `{!UserKeyDiscovery PK} `{!Encryptor PK} `{!SendQueue SQ}.

(** The [EgressBlock] literal of the two loops. *)
Definition egress_block (reliable : bool) (recipient provider : string)
    (messageID : list Z) (blockID : nat) (blk : list Z) : Client.EgressBlock :=
  Client.mkEgressBlock reliable recipient provider (uint16 (Z.of_nat blockID))
                       (Some messageID) blk zero_time None [].

(** The loop of [Send] from index [blockID] on: a storage error is logged
    and the block is queued all the same. *)
Fixpoint Send_loop (recipient provider : string) (messageID : list Z)
    (blockID : nat) (blocks : list (list Z)) (st : Sending St C A SQ)
  : Sending St C A SQ :=
  match blocks with
  | [] => st
  | blk :: rest =>
      let egressBlock := egress_block true recipient provider messageID blockID blk in
      let '(sto, err) := Client.PutEgressBlock (Client.storage (sess st)) messageID egressBlock in
      let s := Client.set_storage sto (sess st) in
      let s := match err with
               | Some _ => Client.logf "failure: egress storage error: %s" s
               | None => s
               end in
      Send_loop recipient provider messageID (S blockID) rest
                (mkSending s (sq_Enqueue (sendQueue st) egressBlock))
  end.

(** [Send]; [rnd] is what [rand.Reader.Read] gives for the message
    identifier. *)
Definition Send (recipient provider : string) (message : list Z)
    (rnd : list Z * option error) (st : Sending St C A SQ)
  : Sending St C A SQ * option (list Z) * option error :=
  let st := mkSending (Client.logf "Send" (sess st)) (sendQueue st) in
  let '(messageID, err) := rnd in
  match err with
  | Some e => (st, None, Some e)
  | None =>
      match ukd_Get recipient with
      | (_, Some e) => (st, None, Some e)
      | (recipientPubKey, None) =>
          match EncryptMessage messageID message recipientPubKey with
          | (_, Some e) => (st, None, Some e)
          | (blocks, None) =>
              (Send_loop recipient provider messageID 0 blocks st,
               Some messageID, None)
          end
      end
  end.

(** The loop of [SendUnreliable]: the result of [PutEgressBlock] is
    dropped. *)
Fixpoint SendUnreliable_loop (recipient provider : string) (messageID : list Z)
    (blockID : nat) (blocks : list (list Z)) (st : Sending St C A SQ)
  : Sending St C A SQ :=
  match blocks with
  | [] => st
  | blk :: rest =>
      let egressBlock := egress_block false recipient provider messageID blockID blk in
      let '(sto, _) := Client.PutEgressBlock (Client.storage (sess st)) messageID egressBlock in
      SendUnreliable_loop recipient provider messageID (S blockID) rest
        (mkSending (Client.set_storage sto (sess st))
                   (sq_Enqueue (sendQueue st) egressBlock))
  end.

(** [SendUnreliable]: the key is looked up under [recipient@provider], and
    a [nil] key is refused. *)
Definition SendUnreliable (recipient provider : string) (message : list Z)
    (rnd : list Z * option error) (st : Sending St C A SQ)
  : Sending St C A SQ * option error :=
  let st := mkSending (Client.logf "SendUnreliable" (sess st)) (sendQueue st) in
  let '(messageID, err) := rnd in
  match err with
  | Some e => (st, Some e)
  | None =>
      match ukd_Get (String.append recipient (String.append "@" provider)) with
      | (_, Some e) => (st, Some e)
      | (None, None) => (st, Some "nil recipient key")
      | (Some recipientPubKey, None) =>
          let st := mkSending (Client.logf "recipient key: %s" (sess st)) (sendQueue st) in
          match EncryptMessage messageID message (Some recipientPubKey) with
          | (_, Some e) => (st, Some e)
          | (blocks, None) =>
              (SendUnreliable_loop recipient provider messageID 0 blocks st, None)
          end
      end
  end.

End Sending.

(** *** Concrete collaborators *)

(** A directory with one entry, an encryption that cuts the message into
    blocks of two bytes, and a queue that records what it is given. *)
#[global] Instance one_user : UserKeyDiscovery (list Z) := fun identity =>
  if decide (identity = "alice") then (Some [7; 7], None)
  else if decide (identity = "bob@provider") then (Some [8; 8], None)
  else if decide (identity = "nobody@provider") then (None, None)
  else (None, Some "no such user").

Fixpoint chunks (fuel : nat) (message : list Z) : list (list Z) :=
  match fuel, message with
  | O, _ => []
  | _, [] => []
  | S fuel', _ => take 2 message :: chunks fuel' (drop 2 message)
  end.

#[global] Instance chunking : Encryptor (list Z) := fun messageID message key =>
  match key with
  | None => ([], Some "no key")
  | Some _ => (chunks (length message) message, None)
  end.

#[global] Instance recording : SendQueue (list Client.EgressBlock) :=
  fun q b => q ++ [b].

Definition sending0 (broken : bool)
  : Sending Client.mem_storage (list (Client.notification (list Z))) Client.arq
            (list Client.EgressBlock) :=
  mkSending (Client.toy_session (Client.mkMem ∅ ∅ broken) ∅ (Client.mkArq [])) [].

End ClientSend.

(** * Facts *)


(** ** Machine integers and deadlines *)

Lemma wrap64_small z : - 2 ^ 63 <= z < 2 ^ 63 -> wrap64 z = z.
Proof.
  intros Hz. unfold wrap64.
  rewrite Z.mod_small; lia.
Qed.

Lemma uint64_small z : 0 <= z < 2 ^ 64 -> uint64 z = z.
Proof. intros Hz. unfold uint64. by rewrite Z.mod_small. Qed.

Lemma clamp64_neg z : clamp64 z < 0 <-> z < 0.
Proof. unfold clamp64. lia. Qed.

(** Without overflow the priority of a message is the deadline
    [SentAt + ReplyETA/2 + (Transmissions+1) * ReplyETA]. *)
Lemma expiry_exact m :
  0 <= SentAt m -> 0 <= ReplyETA m ->
  0 <= Transmissions m <= maxTransmissions ->
  SentAt m + ReplyETA m / 2 + (Transmissions m + 1) * ReplyETA m < 2 ^ 63 ->
  expiry m = SentAt m + ReplyETA m / 2 + (Transmissions m + 1) * ReplyETA m.
Proof.
  unfold maxTransmissions. intros Hs He Ht Hb.
  assert (0 <= ReplyETA m / 2) by (apply Z.div_pos; lia).
  assert (0 <= (Transmissions m + 1) * ReplyETA m) by nia.
  unfold expiry, Time_UnixNano, Time_Add.
  rewrite Z.quot_div_nonneg by lia.
  rewrite (wrap64_small (Transmissions m + 1)) by lia.
  rewrite (wrap64_small ((Transmissions m + 1) * ReplyETA m)) by lia.
  rewrite wrap64_small by lia.
  apply uint64_small. lia.
Qed.

(** The worker takes an entry for due as soon as the clock is past
    [SentAt + ReplyETA]. *)
Lemma timeLeft_neg m now : timeLeft m now < 0 <-> SentAt m + ReplyETA m < now.
Proof. unfold timeLeft, Time_Sub, Time_Add. rewrite clamp64_neg. lia. Qed.

(** ** The priority queue *)



Lemma PQ_Remove_empty p : PQ_Remove p [] = (None, []).
Proof. reflexivity. Qed.



(** ** The delay queue *)

Section TimerQFacts.
Context {Q : Type} `{!nqueue Q}.
Variable h : gmap positive Message.
Implicit Types a : TimerQ Q.

Lemma Push_priq m msg a :
  h !! m = Some msg ->
  exists a', Push h m a = Ret a' /\
             priq a' = Enqueue (expiry msg) m (priq a) /\
             nextQ a' = nextQ a.
Proof. intros Hm. unfold Push. rewrite Hm. eauto. Qed.


(** On an empty queue [Remove] never returns. *)
Lemma Remove_empty m a :
  priq a = [] -> exists why, Remove h m a = Panic why.
Proof.
  intros Hq. unfold Remove. rewrite Hq. cbn.
  destruct (h !! m); eauto.
Qed.

(** With another message at the head [Remove] does nothing. *)
Lemma Remove_not_head m a mo :
  Peek (priq a) = Some mo -> Value mo ≠ m -> Remove h m a = Ret (a, None).
Proof.
  intros Hp Hne. unfold Remove. rewrite Hp.
  by destruct (decide (Value mo = m)).
Qed.

(** The head is the one entry [Remove] can take out. *)
Lemma Remove_head m a mo :
  Peek (priq a) = Some mo -> Value mo = m ->
  exists a', Remove h m a = Ret (a', None) /\ priq a' = tail (priq a).
Proof.
  intros Hp He. unfold Remove. rewrite Hp.
  destruct (decide (Value mo = m)); [|done]. cbn.
  destruct (0 <? Len (tail (priq a))); eauto.
Qed.





Lemma forward_empty a : priq a = [] -> forward a = Ret a.
Proof. intros Hq. unfold forward. rewrite Hq. by destruct a; cbn in *; subst. Qed.

Lemma forward_push_error a e rest nq er :
  priq a = e :: rest -> nq_Push (nextQ a) (Value e) = (nq, Some er) ->
  forward a = Panic er.
Proof. intros Hq Hn. unfold forward. rewrite Hq. cbn. by rewrite Hn. Qed.

(** When the worker forwards: the head is overdue or the timer fired. *)
Lemma worker_iter_forwards now ev a e rest msg :
  priq a = e :: rest -> h !! Value e = Some msg ->
  timeLeft msg now < 0 \/ ev = TimerCh ->
  worker_iter h now ev a = a' ← forward a; Ret (Continue _ a').
Proof.
  intros Hq Hm Hdue. unfold worker_iter. rewrite Hq. cbn. rewrite Hm.
  destruct (timeLeft msg now <? 0) eqn:Htl; [done|].
  apply Z.ltb_ge in Htl. destruct Hdue as [?| ->]; [lia|done].
Qed.

End TimerQFacts.

(** C3 (the code departs from the claim).  The claim: for all sequences of
    [Push] and [Remove] the worker forwards in non-decreasing deadline
    order, a removed item is never forwarded, and [Remove] of an entry that
    has fired or was removed is a no-op without error.  The code: after
    [Push] of a message due at 5s and of one due at 10s, [Remove] of the
    second returns [nil] and leaves the queue as it was, because the head
    is another message; the worker then forwards both, in deadline order.
    Once both have fired the queue is empty, and a further [Remove]
    panics in the type assertion on a nil interface. *)
Theorem Remove_leaves_pending_entry :
  let pushed := run_ops two_msgs [OpPush 1%positive; OpPush 2%positive] (empty_tq 4) in
  let removed := run_ops two_msgs [OpPush 1%positive; OpPush 2%positive; OpRemove 2%positive] (empty_tq 4) in
  pushed = Ret (mkTimerQ [mkEntry (5 * sec) 1%positive; mkEntry (10 * sec) 2%positive]
                         (mkFifo 4 []) 2%nat) /\
  (a ← pushed; Remove two_msgs 2%positive a) = (a ← pushed; Ret (a, None)) /\
  (a ← removed; worker two_msgs [(20 * sec, WakeupCh); (20 * sec, WakeupCh)] a)
    = Ret (mkTimerQ [] (mkFifo 4 [1%positive; 2%positive]) 2%nat) /\
  (a ← removed; a ← worker two_msgs [(20 * sec, WakeupCh); (20 * sec, WakeupCh)] a;
   Remove two_msgs 1%positive a)
    = Panic "interface conversion: interface is nil, not *session.Message".
Proof. vm_compute. repeat split. Qed.

(** C5 (the code departs from the claim).  The claim: entries are ordered
    by the deadline [sentAt + replyETA/2 + (transmissions+1) * replyETA]
    and the worker fires an entry at that instant.  The code: the message
    sent at 0s with a round trip of 2s and one transmission is queued with
    priority 5s, the claimed deadline; the worker iteration that runs one
    nanosecond after 2s finds [timeLeft] negative and forwards it, three
    seconds before the deadline. *)
Theorem worker_forwards_before_deadline :
  heap demo2 !! 1%positive
    = Some (mkMessage (Some [42]) "alice" "provider" [1; 2; 3; 0; 0; 0; 0; 0]
                      0 (2 * sec) None [7] [] 1 true 1) /\
  priq (tq demo2) = [mkEntry (0 + 2 * sec / 2 + (1 + 1) * (2 * sec)) 1%positive] /\
  worker_iter (heap demo2) (2 * sec + 1) WakeupCh (tq demo2)
    = Ret (Continue _ (mkTimerQ [] (mkFifo 4 [1%positive]) 1%nat)) /\
  2 * sec + 1 < 0 + 2 * sec / 2 + (1 + 1) * (2 * sec).
Proof. vm_compute. repeat split. Qed.

(** The claim C9 fails: with two entries due and a downstream queue that
    refuses the first, the worker loop ends in a panic and the second
    entry is never forwarded. *)
Lemma worker_stops_on_push_error :
  let a := run_ops two_msgs [OpPush 1%positive; OpPush 2%positive] (empty_tq 0) in
  a = Ret (mkTimerQ [mkEntry (5 * sec) 1%positive; mkEntry (10 * sec) 2%positive]
                    (mkFifo 0 []) 2%nat) /\
  (a ← a; worker two_msgs [(20 * sec, WakeupCh); (20 * sec, WakeupCh)] a)
    = Panic "queue is full".
Proof. vm_compute. repeat split. Qed.

(** C9 (amended).  When the downstream [Push] returns an error for the
    popped item, [forward] panics with that error: the failure is not
    swallowed, and it ends the worker loop, whatever is still scheduled,
    as soon as the worker forwards that item (the head is overdue or the
    timer fired). *)
Theorem forward_error_panics {Q : Type} `{!nqueue Q} (h : gmap positive Message)
    (a : TimerQ Q) e rest nq er :
  priq a = e :: rest ->
  nq_Push (nextQ a) (Value e) = (nq, Some er) ->
  forward a = Panic er /\
  forall now ev msg sched,
    h !! Value e = Some msg ->
    timeLeft msg now < 0 \/ ev = TimerCh ->
    worker h ((now, ev) :: sched) a = Panic er.
Proof.
  intros Hq Hn. pose proof (forward_push_error a e rest nq er Hq Hn) as Hf.
  split; [exact Hf|].
  intros now ev msg sched Hm Hdue. cbn.
  rewrite (worker_iter_forwards h now ev a e rest msg Hq Hm Hdue).
  by rewrite Hf.
Qed.

Lemma forward_error_panics_witness :
  forward (mkTimerQ [mkEntry (5 * sec) 1%positive] (mkFifo 0 []) 1%nat)
    = Panic "queue is full" /\
  forall now ev msg sched,
    two_msgs !! 1%positive = Some msg ->
    timeLeft msg now < 0 \/ ev = TimerCh ->
    worker two_msgs ((now, ev) :: sched)
           (mkTimerQ [mkEntry (5 * sec) 1%positive] (mkFifo 0 []) 1%nat)
      = Panic "queue is full".
Proof.
  apply (forward_error_panics two_msgs
           (mkTimerQ [mkEntry (5 * sec) 1%positive] (mkFifo 0 []) 1%nat)
           (mkEntry (5 * sec) 1%positive) [] (mkFifo 0 []) "queue is full");
    reflexivity.
Defined.

(** ** The send pipeline *)

Section SendFacts.
Context {Q E : Type} `{!nqueue Q} `{!egress E}.
Variable UserForwardPayloadLength : nat.
Variable SurbTypeKaetzchen SurbTypeACK : Z.

Implicit Types s : Session Q E.

Lemma Push_Ret (h : gmap positive Message) p m (a : TimerQ Q) :
  h !! p = Some m ->
  Push h p a = Ret (Signal (set_priq (Enqueue (expiry m) p (priq a)) a)).
Proof. intros Hp. unfold Push. by rewrite Hp. Qed.

(** What a returning [doSend] does to the store of messages. *)
Lemma doSend_heap surbID tx now msg s s' e :
  doSend surbID tx now msg s = Ret (s', e) ->
  heap s' = heap s \/
  exists m key eta,
    heap s !! msg = Some m /\ gives_up m = false /\
    heap s' = <[msg := sent key now eta m]> (heap s).
Proof.
  unfold doSend. destruct (heap s !! msg) as [m|] eqn:Hm; [|discriminate].
  destruct (gives_up m) eqn:Hg.
  { intros [= <- <-]. by left. }
  destruct tx as [[key eta] [err|]].
  { intros [= <- <-]. by left. }
  set (h' := <[msg := sent key now eta m]> (heap s)).
  assert (Hh : h' !! msg = Some (sent key now eta m)) by apply lookup_insert_eq.
  destruct (Reliable (sent key now eta m)).
  - rewrite (Push_Ret _ _ _ _ Hh). cbn. intros [= <- <-].
    right. by exists m, key, eta.
  - cbn. intros [= <- <-]. right. by exists m, key, eta.
Qed.

Lemma sent_bounded key now eta m :
  0 <= Transmissions m <= maxTransmissions -> gives_up m = false ->
  0 <= Transmissions (sent key now eta m) <= maxTransmissions.
Proof.
  unfold gives_up, maxTransmissions. intros Hb Hg. cbn.
  rewrite wrap64_small by lia.
  apply andb_false_iff in Hg as [Hg|Hg]; lia.
Qed.

Lemma doSend_bounded surbID tx now msg s s' e :
  transmissions_bounded s ->
  doSend surbID tx now msg s = Ret (s', e) ->
  transmissions_bounded s'.
Proof.
  intros Hb Hd p m' Hp.
  destruct (doSend_heap _ _ _ _ _ _ _ Hd) as [Heq|(m & key & eta & Hm & Hg & Heq)];
    rewrite Heq in Hp.
  - by apply (Hb p).
  - destruct (decide (msg = p)) as [->|Hne].
    + rewrite lookup_insert_eq in Hp. injection Hp as <-.
      apply sent_bounded; [by apply (Hb p)|done].
    + rewrite lookup_insert_ne in Hp by done. by apply (Hb p).
Qed.

Lemma alloc_bounded m s :
  transmissions_bounded s -> Transmissions m = 0 ->
  transmissions_bounded (snd (alloc_msg m s)).
Proof.
  intros Hb Hz p m' Hp. unfold alloc_msg in Hp. cbn in Hp.
  destruct (decide (nextptr s = p)) as [Heq|Hne].
  - subst p. rewrite lookup_insert_eq in Hp. injection Hp as <-.
    rewrite Hz. unfold maxTransmissions. lia.
  - rewrite lookup_insert_ne in Hp by done. by apply (Hb p).
Qed.

Lemma SendMessage_bounded recipient provider message reliable query id s s' r e :
  transmissions_bounded s ->
  SendMessage UserForwardPayloadLength SurbTypeKaetzchen SurbTypeACK
              recipient provider message reliable query id s = Ret (s', r, e) ->
  transmissions_bounded s'.
Proof.
  intros Hb. unfold SendMessage, composeMessage.
  destruct (_ <? _)%nat.
  { intros [= <- <- <-]. exact Hb. }
  cbn. destruct (eg_Push _ _) as [e' [er|]]; intros [= <- <- <-];
    apply (alloc_bounded _ _ Hb); reflexivity.
Qed.

Lemma sendNext_bounded surbID tx now s s' e :
  transmissions_bounded s ->
  sendNext surbID tx now s = Ret (s', e) ->
  transmissions_bounded s'.
Proof.
  intros Hb. unfold sendNext.
  destruct (eg_Peek (egressQueue s)) as [[msg|] [err|]]; try discriminate;
    try (intros [= <- <-]; exact Hb).
  destruct (heap s !! msg) as [m|]; [|discriminate].
  destruct (decide (Provider m = "")); [discriminate|].
  destruct (doSend surbID tx now msg s) as [[s1 [e1|]]|] eqn:Hd; cbn;
    try discriminate.
  - intros [= <- <-]. eapply doSend_bounded; eauto.
  - destruct (eg_Pop (egressQueue s1)) as [e' [o err]].
    intros [= <- <-]. 
    exact (doSend_bounded _ _ _ _ _ _ _ Hb Hd).
Qed.

Lemma sendLoopDecoy_bounded svc id surbID tx now s s' e :
  transmissions_bounded s ->
  sendLoopDecoy UserForwardPayloadLength svc id surbID tx now s = Ret (s', e) ->
  transmissions_bounded s'.
Proof.
  intros Hb. unfold sendLoopDecoy.
  destruct svc as [[name provider] [err|]].
  { intros [= <- <-]. exact Hb. }
  cbn. apply doSend_bounded.
  apply (alloc_bounded _ (logf "sending loop decoy" s)); [exact Hb|reflexivity].
Qed.

Lemma WaitForReply_heap msgId s s' reply :
  WaitForReply msgId s = WaitReturned s' reply -> heap s' = heap s.
Proof.
  unfold WaitForReply. destruct msgId as [id|]; [|discriminate].
  cbn. destruct (replyNotifyMap s !! id) as [lk|]; [|discriminate].
  destruct (mutexes s !! lk) as [[|]|]; try discriminate.
  destruct (messageIDMap s !! id) as [p|]; [|discriminate].
  destruct (heap s !! p); [|discriminate].
  by intros [= <- _].
Qed.

Lemma reachable_bounded s :
  reachable UserForwardPayloadLength SurbTypeKaetzchen SurbTypeACK s ->
  transmissions_bounded s.
Proof.
  induction 1 as [s Hs| | | | | | |].
  - intros p m Hp. rewrite Hs in Hp. by rewrite lookup_empty in Hp.
  - eapply SendMessage_bounded; eauto.
  - eapply sendNext_bounded; eauto.
  - eapply doSend_bounded; eauto.
  - eapply sendLoopDecoy_bounded; eauto.
  - intros p m Hp. erewrite WaitForReply_heap in Hp by eauto. eauto.
  - exact IHreachable.
  - exact IHreachable.
Qed.

(** C7.  For every message of every reachable session
    [0 <= transmissions <= maxTransmissions], with [maxTransmissions = 3];
    a message that [doSend] gives up on has exactly [maxTransmissions]
    transmissions; and [doSend] never takes the counter past
    [maxTransmissions] (nor does it lower it). *)
Theorem transmissions_within_max s p m :
  reachable UserForwardPayloadLength SurbTypeKaetzchen SurbTypeACK s ->
  heap s !! p = Some m ->
  0 <= Transmissions m <= maxTransmissions /\
  (gives_up m = true -> Transmissions m = maxTransmissions) /\
  (forall surbID tx now s' e m',
      doSend surbID tx now p s = Ret (s', e) -> heap s' !! p = Some m' ->
      Transmissions m <= Transmissions m' <= maxTransmissions).
Proof.
  intros Hr Hp. pose proof (reachable_bounded s Hr) as Hb.
  pose proof (Hb p m Hp) as Hm. split; [exact Hm|]. split.
  - unfold gives_up. intros Hg. apply andb_true_iff in Hg as [_ Hg]. lia.
  - intros surbID tx now s' e m' Hd Hp'.
    pose proof (doSend_bounded _ _ _ _ _ _ _ Hb Hd p m' Hp') as Hm'.
    split; [|lia].
    destruct (doSend_heap _ _ _ _ _ _ _ Hd) as [Heq|(m0 & key & eta & Hm0 & Hg & Heq)];
      rewrite Heq in Hp'.
    + rewrite Hp in Hp'. injection Hp' as <-. lia.
    + rewrite lookup_insert_eq in Hp'. injection Hp' as <-.
      rewrite Hp in Hm0. injection Hm0 as <-. cbn.
      rewrite wrap64_small; unfold maxTransmissions in *; lia.
Qed.

(** A [doSend] that gives up returns [nil] and leaves the session as it
    is. *)
Lemma doSend_gives_up surbID tx now msg s m :
  heap s !! msg = Some m -> gives_up m = true ->
  doSend surbID tx now msg s = Ret (s, None).
Proof. intros Hm Hg. unfold doSend. by rewrite Hm, Hg. Qed.

(** No [doSend] takes an identifier out of [surbIDMap]. *)
Lemma doSend_keeps_surbs surbID tx now msg s s' e old p :
  doSend surbID tx now msg s = Ret (s', e) ->
  old ≠ surbID -> surbIDMap s !! old = Some p ->
  surbIDMap s' !! old = Some p.
Proof.
  unfold doSend. destruct (heap s !! msg) as [m|]; [|discriminate].
  destruct (gives_up m).
  { by intros [= <- <-]. }
  destruct tx as [[key eta] [err|]].
  { by intros [= <- <-]. }
  intros Hd Hne Ho.
  destruct (if Reliable (sent key now eta m) then _ else _) as [a|];
    cbn in Hd; [|discriminate].
  injection Hd as <- <-. cbn. by rewrite lookup_insert_ne.
Qed.

(** [SendMessage] registers a held mutex under the identifier it
    returns. *)
Lemma SendMessage_registers recipient provider message reliable query id s s' id' :
  SendMessage UserForwardPayloadLength SurbTypeKaetzchen SurbTypeACK
              recipient provider message reliable query id s
    = Ret (s', Some id', None) ->
  id' = id /\ WaitForReply (Some id) s' = WaitBlocked.
Proof.
  unfold SendMessage, composeMessage.
  destruct (_ <? _)%nat; [discriminate|]. cbn.
  destruct (eg_Push _ _) as [e' [er|]]; [discriminate|].
  intros [= <- <-]. split; [done|].
  unfold WaitForReply. cbn. rewrite lookup_insert_eq. cbn.
  by rewrite lookup_insert_eq.
Qed.

(** C10.  [WaitForReply] for a message identifier without an entry in
    [replyNotifyMap] (none was registered by [SendMessage]) gets a nil
    mutex from the map and faults when it locks it: it neither returns
    nor blocks. *)
Theorem WaitForReply_unregistered_faults s id :
  replyNotifyMap s !! id = None ->
  WaitForReply (Some id) s = WaitFault nil_deref.
Proof. intros Hn. unfold WaitForReply. cbn. by rewrite Hn. Qed.

End SendFacts.

Lemma WaitForReply_unregistered_faults_witness :
  WaitForReply (Some [43]) demo1 = WaitFault nil_deref.
Proof. apply WaitForReply_unregistered_faults. vm_compute. reflexivity. Defined.

Lemma demo4w_reachable : reachable 8 1 0 demo4w.
Proof.
  apply (reach_worker 8 1 0 demo4 (8 * sec + 1) WakeupCh
           (Continue _ (mkTimerQ [] (mkFifo 4 [1; 1; 1]%positive) 3%nat)));
    [|vm_compute; reflexivity].
  apply (reach_doSend 8 1 0 demo3w [102] ([9], 2 * sec, None) (6 * sec) 1%positive demo4 None);
    [|vm_compute; reflexivity].
  apply (reach_worker 8 1 0 demo3 (5 * sec + 1) WakeupCh
           (Continue _ (mkTimerQ [] (mkFifo 4 [1; 1]%positive) 2%nat)));
    [|vm_compute; reflexivity].
  apply (reach_doSend 8 1 0 demo2w [101] ([8], 2 * sec, None) (3 * sec) 1%positive demo3 None);
    [|vm_compute; reflexivity].
  apply (reach_worker 8 1 0 demo2 (2 * sec + 1) WakeupCh
           (Continue _ (mkTimerQ [] (mkFifo 4 [1]%positive) 1%nat)));
    [|vm_compute; reflexivity].
  apply (reach_sendNext 8 1 0 demo1 [100] ([7], 2 * sec, None) 0 demo2 None);
    [|vm_compute; reflexivity].
  apply (reach_SendMessage 8 1 0 demo0 "alice" "provider" [1; 2; 3] true true [42]
           demo1 (Some [42]) None);
    [|vm_compute; reflexivity].
  apply reach_new. reflexivity.
Defined.

Lemma transmissions_within_max_witness :
  0 <= Transmissions demo_msg <= maxTransmissions /\
  (gives_up demo_msg = true -> Transmissions demo_msg = maxTransmissions) /\
  (forall surbID tx now s' e m',
      doSend surbID tx now 1%positive demo4w = Ret (s', e) ->
      heap s' !! 1%positive = Some m' ->
      Transmissions demo_msg <= Transmissions m' <= maxTransmissions).
Proof.
  apply (transmissions_within_max 8 1 0 demo4w 1%positive demo_msg).
  - exact demo4w_reachable.
  - vm_compute. reflexivity.
Defined.

(** C1 (the code departs from the claim).  The claim: every successful
    [doSend] replaces the old SURB identifier of the message by a fresh one
    and invalidates the old one, so that an acknowledgement with an earlier
    identifier never matches the message.  The code: the retransmission
    adds the new identifier [101] to [surbIDMap] and leaves the identifier
    [100] of the first transmission in it, still pointing to the message;
    the [SURBID] field of the message is never written. *)
Theorem doSend_keeps_stale_surb :
  surbIDMap demo2w !! [100] = Some 1%positive /\
  doSend [101] ([8], 2 * sec, None) (3 * sec) 1%positive demo2w = Ret (demo3, None) /\
  surbIDMap demo3 !! [100] = Some 1%positive /\
  surbIDMap demo3 !! [101] = Some 1%positive /\
  SURBID <$> heap demo3 !! 1%positive = Some None.
Proof. vm_compute. repeat split. Qed.

(** C2 (the code departs from the claim).  The claim: a message whose
    retransmission fires with [transmissions >= maxTransmissions] is
    removed from all maps and its waiter is released with a failure.  The
    code: for the message with three transmissions [doSend] returns [nil]
    and leaves the session as it is; the message stays in [messageIDMap]
    and under its three SURB identifiers in [surbIDMap], and
    [WaitForReply] for it is still blocked. *)
Theorem doSend_gives_up_silently :
  heap demo4w !! 1%positive = Some demo_msg /\
  doSend [103] ([10], 2 * sec, None) (9 * sec) 1%positive demo4w = Ret (demo4w, None) /\
  messageIDMap demo4w !! [42] = Some 1%positive /\
  surbIDMap demo4w !! [100] = Some 1%positive /\
  surbIDMap demo4w !! [101] = Some 1%positive /\
  surbIDMap demo4w !! [102] = Some 1%positive /\
  WaitForReply (Some [42]) demo4w = WaitBlocked.
Proof. vm_compute. repeat split. Qed.

(** ** The callbacks of package client *)

Section ClientFacts.
Context {PK St C A : Type}.
Context `{!Client.Crypto PK} `{!Client.Storage St}
        `{!Client.MessageConsumer C PK} `{!Client.ARQScheduler A}.
Variable reassemble : list (Client.IngressBlock PK) -> list Z * option error.

Implicit Types s : Client.Session St C A.

(** A fragment of a longer message whose reassembly fails is stored, and
    the consumer is called all the same, with whatever [reassemble] gave
    for a message. *)
Lemma onMessage_falls_through ct s rBlock pk st stored raw ibs msg err st' :
  Client.DecryptBlock ct = inl (rBlock, pk) ->
  block.TotalBlocks rBlock ≠ 1 ->
  Client.GetIngressBlocks (Client.storage s) (block.MessageID rBlock)
    = (st, (stored, None)) ->
  Client.ToBytes (Client.mkIngressBlock 0 pk rBlock) = (raw, None) ->
  Client.decode_all (stored ++ [raw]) = Ret (inl ibs) ->
  reassemble ibs = (msg, Some err) ->
  Client.PutIngressBlock st (block.MessageID rBlock) raw = (st', None) ->
  Client.onMessage reassemble ct s
    = Ret (Client.notify pk msg
             (Client.set_storage st' (Client.logf "OnMessage" s)), None).
Proof.
  intros Hd Ht Hg Hb Hda Hr Hp. unfold Client.onMessage. rewrite Hd.
  destruct (block.TotalBlocks rBlock =? 1) eqn:Hone; [apply Z.eqb_eq in Hone; done|].
  cbn. rewrite Hg, Hb, Hda. cbn. rewrite Hr. cbn. by rewrite Hp.
Qed.

(** Whatever [reassemble] does: an [onMessage] that returns no error has
    called [ReceivedMessage], once, on its way out. *)
Lemma onMessage_nil_after_notifying ct s s' :
  Client.onMessage reassemble ct s = Ret (s', None) ->
  exists pk msg,
    Client.messageConsumer s'
      = Client.ReceivedMessage (Client.messageConsumer s) pk msg.
Proof.
  unfold Client.onMessage.
  destruct (Client.DecryptBlock ct) as [[rBlock pk]|err]; [|discriminate].
  destruct (block.TotalBlocks rBlock =? 1).
  { intros [= <-]. by exists pk, (block.Payload rBlock). }
  destruct (Client.GetIngressBlocks _ _) as [st [stored [e|]]]; [discriminate|].
  destruct (Client.ToBytes _) as [raw [e|]]; [discriminate|].
  destruct (Client.decode_all _) as [[ibs|e]|w]; cbn; try discriminate.
  destruct (reassemble ibs) as [msg [e|]].
  - destruct (Client.PutIngressBlock _ _ _) as [st' [e'|]]; [discriminate|].
    intros [= <-]. by exists pk, msg.
  - intros [= <-]. by exists pk, msg.
Qed.

(** Registration is refused when the identifier carried by the manifest
    is present. *)
Lemma AddSURBKeys_rejects surbid manifest s mid :
  Client.SURBID manifest = Some mid ->
  is_Some (Client.surbKeyMap s !! mid) ->
  Client.AddSURBKeys surbid manifest s
    = Ret (Client.logf "failure: SURB ID already present in surbKeyMap" s,
           Some "failure: SURB ID already present in surbKeyMap").
Proof.
  intros Hm [k Hk]. unfold Client.AddSURBKeys. by rewrite Hm, Hk.
Qed.

(** [onACK] never reports an error. *)
Lemma onACK_returns_nil surbid message s :
  snd (Client.onACK surbid message s) = None.
Proof.
  unfold Client.onACK. cbn.
  destruct (Client.surbKeyMap s !! surbid); [|done].
  destruct (Client.RemoveSURBKey _ _) as [st [e|]]; [done|].
  destruct (Client.DecryptSURBPayload _ _) as [pt [e|]]; [done|].
  destruct (negb _); [done|].
  by destruct (Client.CancelRetransmission _ _) as [a [e|]].
Qed.

(** After [onACK] the identifier is not in the map, whatever happened. *)
Lemma onACK_consumes surbid message s :
  Client.surbKeyMap (fst (Client.onACK surbid message s)) !! surbid = None.
Proof.
  unfold Client.onACK. cbn.
  destruct (Client.surbKeyMap s !! surbid) eqn:Hk; [|done].
  destruct (Client.RemoveSURBKey _ _) as [st [e|]]; cbn;
    [apply lookup_delete_eq|].
  destruct (Client.DecryptSURBPayload _ _) as [pt [e|]]; cbn;
    [apply lookup_delete_eq|].
  destruct (negb _); cbn; [apply lookup_delete_eq|].
  destruct (Client.CancelRetransmission _ _) as [a [e|]]; cbn;
    apply lookup_delete_eq.
Qed.

(** An acknowledgement for an unknown identifier is logged and dropped. *)
Lemma onACK_unknown surbid message s :
  Client.surbKeyMap s !! surbid = None ->
  Client.onACK surbid message s
    = (Client.logf "failure: SURB key not found for received ACK"
         (Client.logf "OnACK" s), None).
Proof. intros Hk. unfold Client.onACK. cbn. by rewrite Hk. Qed.

Lemma onACK_duplicate surbid message message' s :
  let s1 := fst (Client.onACK surbid message s) in
  Client.onACK surbid message' s1
    = (Client.logf "failure: SURB key not found for received ACK"
         (Client.logf "OnACK" s1), None).
Proof. apply onACK_unknown, onACK_consumes. Qed.

(** C4 (amended).  For an acknowledgement whose SURB identifier is in the
    map, [onACK] removes the identifier, returns no error, and asks the
    scheduler to cancel the retransmission if and only if the removal of
    the key from the storage succeeds, the payload decrypts and the
    plaintext is all zero; in every other case the scheduler is left as it
    is and one line is logged. *)
Theorem onACK_cancels_iff_accepted surbid message s surbKeys :
  Client.surbKeyMap s !! surbid = Some surbKeys ->
  let s' := fst (Client.onACK surbid message s) in
  snd (Client.onACK surbid message s) = None /\
  Client.surbKeyMap s' = delete surbid (Client.surbKeyMap s) /\
  Client.arqScheduler s' =
    (if Client.ack_accepted surbid message surbKeys s
     then fst (Client.CancelRetransmission (Client.arqScheduler s) surbid)
     else Client.arqScheduler s) /\
  (Client.ack_accepted surbid message surbKeys s = false ->
   exists line, Client.log s' = Client.log s ++ ["OnACK"; line]).
Proof.
  intros Hk. split; [apply onACK_returns_nil|].
  unfold Client.onACK, Client.ack_accepted. cbn. rewrite Hk.
  destruct (Client.RemoveSURBKey _ _) as [st [e|]]; cbn.
  { split; [done|]. split; [done|]. intros _. rewrite <- app_assoc. eauto. }
  destruct (Client.DecryptSURBPayload _ _) as [pt [e|]]; cbn.
  { split; [done|]. split; [done|]. intros _. rewrite <- app_assoc. eauto. }
  destruct (Client.CtIsZero pt); cbn.
  - destruct (Client.CancelRetransmission _ _) as [a [e|]]; cbn;
      repeat split; done.
  - split; [done|]. split; [done|]. intros _. rewrite <- app_assoc. eauto.
Qed.

End ClientFacts.

Lemma onACK_cancels_iff_accepted_witness :
  let s' := fst (Client.onACK [5] [1; 2] (acking false)) in
  snd (Client.onACK [5] [1; 2] (acking false)) = None /\
  Client.surbKeyMap s' = delete [5] (Client.surbKeyMap (acking false)) /\
  Client.arqScheduler s' =
    (if Client.ack_accepted [5] [1; 2] [1; 2] (acking false)
     then fst (Client.CancelRetransmission (Client.arqScheduler (acking false)) [5])
     else Client.arqScheduler (acking false)) /\
  (Client.ack_accepted [5] [1; 2] [1; 2] (acking false) = false ->
   exists line, Client.log s' = Client.log (acking false) ++ ["OnACK"; line]).
Proof.
  apply (onACK_cancels_iff_accepted [5] [1; 2] (acking false) [1; 2]).
  vm_compute. reflexivity.
Defined.

(** The claim C4 fails: the payload decrypts to zeros, yet with a storage
    that cannot remove the key the retransmission stays pending; with a
    working storage the same acknowledgement cancels it. *)
Lemma onACK_storage_failure_blocks_cancel :
  Client.surbKeyMap (acking true) !! [5] = Some [1; 2] /\
  Client.DecryptSURBPayload [1; 2] [1; 2] = ([0; 0], None) /\
  Client.CtIsZero [0; 0] = true /\
  Client.pending (Client.arqScheduler (acking true)) = [[5]] /\
  Client.pending (Client.arqScheduler (fst (Client.onACK [5] [1; 2] (acking true)))) = [[5]] /\
  Client.pending (Client.arqScheduler (fst (Client.onACK [5] [1; 2] (acking false)))) = [].
Proof. vm_compute. repeat split. Qed.

(** C6 (the code departs from the claim).  The claim: for a message of
    several blocks there is no consumer notification until every fragment
    has arrived, and then exactly one.  The code: the first fragment of a
    three-block message is stored, [onMessage] returns no error, and the
    consumer is notified with an empty message; with the fragments 0, 2, 1
    the consumer is notified three times, the last time with the blocks in
    index order. *)
Theorem onMessage_notifies_on_missing_fragments :
  Client.reassemble_spec
    [Client.mkIngressBlock 0 [7; 7] (block.mkBlock [9] 3 0 [10; 11])]
    = ([], Some "missing fragments") /\
  returned (Client.onMessage Client.reassemble_spec (fragment 0 [10; 11]) client0)
    = Ret None /\
  Client.messageConsumer (deliver (fragment 0 [10; 11]) client0)
    = [Client.GotMessage [7; 7] []] /\
  Client.messageConsumer
    (deliver (fragment 1 [30]) (deliver (fragment 2 [20]) (deliver (fragment 0 [10; 11]) client0)))
    = [Client.GotMessage [7; 7] []; Client.GotMessage [7; 7] [];
       Client.GotMessage [7; 7] [10; 11; 30; 20]].
Proof. vm_compute. repeat split. Qed.

(** C8 (the code departs from the claim).  The claim: registering a SURB
    identifier that is already present is rejected with an error.  The
    code: [AddSURBKeys] looks up the identifier of the manifest and writes
    under its argument; with [5] present and a manifest that carries [6],
    registering under [5] returns no error and replaces the keys of [5]. *)
Theorem AddSURBKeys_overwrites_present_id :
  let manifest := Client.mkEgressBlock true "alice" "provider" 0 (Some [9]) []
                    0 (Some [6]) [3; 4] in
  Client.surbKeyMap (acking false) !! [5] = Some [1; 2] /\
  returned (Client.AddSURBKeys [5] manifest (acking false)) = Ret None /\
  Client.surbKeyMap (after (acking false) (Client.AddSURBKeys [5] manifest (acking false))) !! [5]
    = Some [3; 4].
Proof. vm_compute. repeat split. Qed.

(** * Further facts *)

(** ** The delay queue *)

Lemma Enqueue_Permutation p v q : Enqueue p v q ≡ₚ mkEntry p v :: q.
Proof.
  induction q as [|e q IH]; cbn; [done|].
  destruct (p <? Priority e); [done|].
  rewrite IH. apply Permutation_swap.
Qed.

Lemma Enqueue_least p v q :
  Forall (fun y => p < Priority y) q -> Enqueue p v q = mkEntry p v :: q.
Proof.
  destruct 1 as [|e q He _]; cbn; [done|].
  by apply Z.ltb_lt in He as ->.
Qed.

Section MoreTimerQFacts.
Context {Q : Type} `{!nqueue Q}.
Variable h : gmap positive Message.
Implicit Types a : TimerQ Q.


(** X2. [Remove] never returns an error: when it returns, the error is
    [nil], the downstream queue is untouched, and the queue is as it was
    unless the message was at the head, in which case the head alone is
    gone. *)
Theorem Remove_returns_nil m a a' e :
  Remove h m a = Ret (a', e) ->
  e = None /\ nextQ a' = nextQ a /\
  (a' = a \/ exists mo, priq a = mo :: priq a' /\ Value mo = m).
Proof.
  unfold Remove. destruct (priq a) as [|mo rest] eqn:Hq; cbn.
  - destruct (h !! m); discriminate.
  - destruct (decide (Value mo = m)) as [Hv|Hv].
    + destruct (0 <? Len rest); intros [= <- <-]; cbn;
        (split; [done|]); (split; [done|]); right; by exists mo.
    + intros [= <- <-]. by repeat split; [..|left].
Qed.

(** X3. With an empty queue the worker forwards nothing and does not
    panic, whatever clock readings and events it is given. *)
Theorem worker_idle_on_empty_queue sched a :
  priq a = [] -> worker h sched a = Ret a.
Proof.
  intros Hq. induction sched as [|[now ev] sched IH]; cbn; [done|].
  unfold worker_iter. rewrite Hq. cbn. by destruct ev.
Qed.

(** X4. While the clock has not passed [SentAt + ReplyETA] of the message
    at the head, a wake-up leaves the queue as it is: nothing is
    forwarded, not even an overdue entry behind the head. *)
Theorem worker_waits_for_head now a e rest msg :
  priq a = e :: rest -> h !! Value e = Some msg ->
  now <= SentAt msg + ReplyETA msg ->
  worker_iter h now WakeupCh a = Ret (Continue _ a) /\
  worker_iter h now HaltCh a = Ret (Return _ a).
Proof.
  intros Hq Hm Hnow. unfold worker_iter. rewrite Hq. cbn. rewrite Hm.
  destruct (timeLeft msg now <? 0) eqn:Htl; [|done].
  apply Z.ltb_lt, timeLeft_neg in Htl. lia.
Qed.


(** X6. A message pushed with a deadline earlier than every queued one
    becomes the head, and [Remove] of it gives back the queue as it was
    before the [Push]. *)
Theorem Push_then_Remove m msg a :
  h !! m = Some msg ->
  Forall (fun y => expiry msg < Priority y) (priq a) ->
  exists a1 a2, Push h m a = Ret a1 /\ Remove h m a1 = Ret (a2, None) /\
    priq a2 = priq a /\ nextQ a2 = nextQ a.
Proof.
  intros Hm Hlt. unfold Push. rewrite Hm.
  set (a1 := Signal (set_priq (Enqueue (expiry msg) m (priq a)) a)).
  assert (Hq : priq a1 = mkEntry (expiry msg) m :: priq a)
    by (cbn; by apply Enqueue_least).
  exists a1. unfold Remove. rewrite Hq. cbn.
  destruct (decide (m = m)); [|done].
  destruct (0 <? Len (priq a)); eexists; (split; [reflexivity|]);
    (split; [reflexivity|]); done.
Qed.

End MoreTimerQFacts.


Lemma Remove_returns_nil_witness :
  let a := mkTimerQ [mkEntry (5 * sec) 1%positive; mkEntry (10 * sec) 2%positive]
                    (mkFifo 4 []) 2%nat in
  let a' := mkTimerQ [mkEntry (10 * sec) 2%positive] (mkFifo 4 []) 3%nat in
  @None error = None /\ nextQ a' = nextQ a /\
  (a' = a \/ exists mo, priq a = mo :: priq a' /\ Value mo = 1%positive).
Proof.
  apply (Remove_returns_nil two_msgs 1%positive). vm_compute. reflexivity.
Defined.

Lemma worker_idle_on_empty_queue_witness :
  worker two_msgs [(sec, TimerCh); (2 * sec, WakeupCh)] (empty_tq 4) = Ret (empty_tq 4).
Proof. apply worker_idle_on_empty_queue. reflexivity. Defined.

Lemma worker_waits_for_head_witness :
  let a := mkTimerQ [mkEntry (5 * sec) 1%positive; mkEntry (10 * sec) 2%positive]
                    (mkFifo 4 []) 2%nat in
  worker_iter two_msgs (2 * sec) WakeupCh a = Ret (Continue _ a) /\
  worker_iter two_msgs (2 * sec) HaltCh a = Ret (Return _ a).
Proof.
  apply (worker_waits_for_head two_msgs (2 * sec) _ (mkEntry (5 * sec) 1%positive)
           [mkEntry (10 * sec) 2%positive] early_msg);
    [reflexivity | vm_compute; reflexivity | vm_compute; discriminate].
Defined.


Lemma Push_then_Remove_witness :
  let a := mkTimerQ [mkEntry (10 * sec) 2%positive] (mkFifo 4 []) 1%nat in
  exists a1 a2, Push two_msgs 1%positive a = Ret a1 /\
    Remove two_msgs 1%positive a1 = Ret (a2, None) /\
    priq a2 = priq a /\ nextQ a2 = nextQ a.
Proof.
  apply (Push_then_Remove two_msgs 1%positive early_msg);
    [vm_compute; reflexivity|].
  repeat constructor.
Defined.

(** ** The send pipeline *)

Lemma pad_length n (message : list Z) :
  (length message <= n)%nat -> length (pad n message) = n.
Proof.
  intros Hl. unfold pad. rewrite length_app, length_take, length_replicate. lia.
Qed.

Lemma pad_short n (message : list Z) :
  (length message <= n)%nat ->
  pad n message = message ++ replicate (n - length message) 0.
Proof. intros Hl. unfold pad. by rewrite take_ge. Qed.

Section MoreSendFacts.
Context {Q E : Type} `{!nqueue Q} `{!egress E}.
Variable UserForwardPayloadLength : nat.
Variable SurbTypeKaetzchen SurbTypeACK : Z.

Implicit Types s : Session Q E.

(** X7. A [doSend] that goes through (the message is not given up on and
    the transport accepts it) stamps the message with the key, the clock
    reading and the estimate, counts one more transmission, files the
    message under the new SURB identifier, and queues it for
    retransmission exactly when it is reliable. *)
Theorem doSend_success surbID key eta now msg s m :
  heap s !! msg = Some m -> gives_up m = false ->
  exists s', doSend surbID (key, eta, None) now msg s = Ret (s', None) /\
    heap s' = <[msg := sent key now eta m]> (heap s) /\
    Key (sent key now eta m) = key /\ SentAt (sent key now eta m) = now /\
    ReplyETA (sent key now eta m) = eta /\
    Transmissions (sent key now eta m) = wrap64 (Transmissions m + 1) /\
    surbIDMap s' = <[surbID := msg]> (surbIDMap s) /\
    priq (tq s') ≡ₚ
      (if Reliable m then [mkEntry (expiry (sent key now eta m)) msg] else [])
        ++ priq (tq s).
Proof.
  intros Hm Hg. unfold doSend. rewrite Hm, Hg.
  set (m' := sent key now eta m).
  assert (Hh : <[msg := m']> (heap s) !! msg = Some m') by apply lookup_insert_eq.
  assert (Hr : Reliable m' = Reliable m) by reflexivity. rewrite Hr.
  destruct (Reliable m).
  - unfold Push. rewrite Hh. cbn. eexists. split; [reflexivity|]. cbn.
    repeat split. apply Enqueue_Permutation.
  - cbn. eexists. split; [reflexivity|]. cbn. by repeat split.
Qed.

(** X8. The deadline queued by a transmission at [now] with estimate [eta]
    is [now + eta/2 + (n+2) * eta], [n] being the transmissions before it:
    the counter is incremented before [expiry] reads it. *)
Theorem deadline_after_transmission key eta now m :
  0 <= now -> 0 <= eta ->
  0 <= Transmissions m < maxTransmissions ->
  now + eta / 2 + (Transmissions m + 2) * eta < 2 ^ 63 ->
  expiry (sent key now eta m) = now + eta / 2 + (Transmissions m + 2) * eta.
Proof.
  unfold maxTransmissions. intros Hn He Ht Hb.
  assert (Hw : Transmissions (sent key now eta m) = Transmissions m + 1)
    by (cbn; apply wrap64_small; lia).
  rewrite expiry_exact; rewrite ?Hw; unfold maxTransmissions; cbn; try lia.
Qed.

(** What no [doSend] touches. *)
Lemma doSend_untouched surbID tx now msg s s' e :
  doSend surbID tx now msg s = Ret (s', e) ->
  replyNotifyMap s' = replyNotifyMap s /\ messageIDMap s' = messageIDMap s /\
  mutexes s' = mutexes s /\ egressQueue s' = egressQueue s /\
  nextQ (tq s') = nextQ (tq s) /\ dom (heap s') = dom (heap s) /\
  forall old, old ≠ surbID -> surbIDMap s' !! old = surbIDMap s !! old.
Proof.
  unfold doSend. destruct (heap s !! msg) as [m|] eqn:Hm; [|discriminate].
  destruct (gives_up m).
  { by intros [= <- <-]. }
  destruct tx as [[key eta] [err|]].
  { by intros [= <- <-]. }
  set (m' := sent key now eta m).
  assert (Hh : <[msg := m']> (heap s) !! msg = Some m') by apply lookup_insert_eq.
  assert (Hd : dom (<[msg := m']> (heap s)) = dom (heap s)).
  { apply dom_insert_lookup_L. by eexists. }
  destruct (Reliable m').
  - unfold Push. rewrite Hh. cbn. intros [= <- <-]. cbn.
    repeat split; [done|]. intros old Ho. by rewrite lookup_insert_ne.
  - cbn. intros [= <- <-]. cbn.
    repeat split; [done|]. intros old Ho. by rewrite lookup_insert_ne.
Qed.

(** X9. No [doSend] takes anything away: the registered identifiers, the
    mutexes, the egress queue and the downstream queue are as before, the
    same addresses hold messages, and every SURB identifier other than the
    new one points where it pointed. *)
Theorem doSend_frame surbID tx now msg s s' e :
  doSend surbID tx now msg s = Ret (s', e) ->
  replyNotifyMap s' = replyNotifyMap s /\ messageIDMap s' = messageIDMap s /\
  mutexes s' = mutexes s /\ egressQueue s' = egressQueue s /\
  nextQ (tq s') = nextQ (tq s) /\ dom (heap s') = dom (heap s) /\
  forall old, old ≠ surbID -> surbIDMap s' !! old = surbIDMap s !! old.
Proof. apply doSend_untouched. Qed.

(** X10. [composeMessage] refuses a message longer than the payload length
    and otherwise builds a message whose payload has exactly that length:
    the message followed by zeros.  The new message is unsent, unreliable
    and has no SURB. *)
Theorem composeMessage_pads recipient provider message query id s :
  let r := composeMessage UserForwardPayloadLength SurbTypeKaetzchen SurbTypeACK
             recipient provider message query id s in
  if decide (length message <= UserForwardPayloadLength)%nat then
    exists m, r = (logf "SendMessage" s, Some m, None) /\
      Payload m = message ++ replicate (UserForwardPayloadLength - length message) 0 /\
      length (Payload m) = UserForwardPayloadLength /\
      ID m = Some id /\ Recipient m = recipient /\ Provider m = provider /\
      Transmissions m = 0 /\ Reliable m = false /\ SURBID m = None
  else r = (logf "SendMessage" s, None, Some "invalid message size: %v").
Proof.
  cbn. unfold composeMessage.
  destruct (decide (length message <= UserForwardPayloadLength)%nat) as [Hl|Hl].
  - destruct (UserForwardPayloadLength <? length message)%nat eqn:Hlt;
      [apply Nat.ltb_lt in Hlt; lia|].
    eexists. split; [reflexivity|]. cbn.
    rewrite pad_length by done. by rewrite pad_short.
  - destruct (UserForwardPayloadLength <? length message)%nat eqn:Hlt;
      [done|apply Nat.ltb_ge in Hlt; lia].
Qed.

(** X11. When the egress queue refuses the message, [SendMessage] returns
    the error and no identifier, yet the registration stays: the message
    is in [messageIDMap] and its mutex is held, so a [WaitForReply] for
    the identifier blocks. *)
Theorem SendMessage_push_failure recipient provider message reliable query id s s' er :
  SendMessage UserForwardPayloadLength SurbTypeKaetzchen SurbTypeACK
              recipient provider message reliable query id s
    = Ret (s', None, Some er) ->
  (length message <= UserForwardPayloadLength)%nat ->
  messageIDMap s' !! id = Some (nextptr s) /\
  is_Some (heap s' !! nextptr s) /\
  WaitForReply (Some id) s' = WaitBlocked.
Proof.
  unfold SendMessage, composeMessage. intros Hs Hl.
  destruct (UserForwardPayloadLength <? length message)%nat eqn:Hlt;
    [apply Nat.ltb_lt in Hlt; lia|].
  cbn in Hs. destruct (eg_Push _ _) as [e' [er'|]]; [|discriminate].
  injection Hs as <- <-. cbn.
  split; [apply lookup_insert_eq|]. split.
  { rewrite lookup_insert_eq. by eexists. }
  unfold WaitForReply. cbn. rewrite lookup_insert_eq. cbn.
  by rewrite lookup_insert_eq.
Qed.

(** X12. A [SendMessage] that succeeds returns the identifier it was
    given, stores the padded message, unsent and with the requested
    reliability, at a new address registered under that identifier, and
    touches neither the SURB map nor the delay queue; the messages that
    were there stay. *)
Theorem SendMessage_success recipient provider message reliable query id s s' r :
  SendMessage UserForwardPayloadLength SurbTypeKaetzchen SurbTypeACK
              recipient provider message reliable query id s
    = Ret (s', Some r, None) ->
  r = id /\
  messageIDMap s' !! id = Some (nextptr s) /\
  (exists m, heap s' !! nextptr s = Some m /\
     Payload m = pad UserForwardPayloadLength message /\
     Reliable m = reliable /\ Transmissions m = 0 /\ ID m = Some id) /\
  (forall p, p ≠ nextptr s -> heap s' !! p = heap s !! p) /\
  surbIDMap s' = surbIDMap s /\ tq s' = tq s.
Proof.
  unfold SendMessage, composeMessage.
  destruct (UserForwardPayloadLength <? length message)%nat; [discriminate|].
  cbn. destruct (eg_Push _ _) as [e' [er'|]]; [discriminate|].
  intros [= <- <-]. cbn.
  split; [done|]. split; [apply lookup_insert_eq|]. split.
  { eexists. split; [apply lookup_insert_eq|]. done. }
  split; [|done]. intros p Hp. by rewrite lookup_insert_ne.
Qed.

(** X13. [sendNext] takes the message off the egress queue only after a
    [doSend] without error; when [Peek] or [doSend] fails the error is
    returned and the queue is as it was, so the same message is offered
    again. *)
Theorem sendNext_pops_after_send surbID tx now s s' e :
  sendNext surbID tx now s = Ret (s', e) ->
  (exists msg s1, fst (eg_Peek (egressQueue s)) = Some msg /\
     doSend surbID tx now msg s = Ret (s1, None) /\
     s' = set_egress (fst (eg_Pop (egressQueue s1))) s1 /\
     e = snd (snd (eg_Pop (egressQueue s1)))) \/
  (is_Some e /\ egressQueue s' = egressQueue s).
Proof.
  unfold sendNext.
  destruct (eg_Peek (egressQueue s)) as [[msg|] [err|]] eqn:Hp;
    try discriminate; try (intros [= <- <-]; right; by eauto).
  destruct (heap s !! msg) as [m|]; [|discriminate].
  destruct (decide (Provider m = "")); [discriminate|].
  destruct (doSend surbID tx now msg s) as [[s1 [e1|]]|] eqn:Hd; cbn;
    try discriminate.
  - intros [= <- <-]. right. split; [eauto|].
    by destruct (doSend_untouched _ _ _ _ _ _ _ Hd) as (_ & _ & _ & -> & _).
  - destruct (eg_Pop (egressQueue s1)) as [e' [o err]] eqn:Hpop.
    intros [= <- <-]. left. exists msg, s1. by rewrite Hpop.
Qed.

(** X14. A loop decoy that goes through is sent once and never again: it
    is not put on the delay queue, it is not registered for a reply, and
    the one thing that points to it is its SURB identifier.  Its payload
    is all zeros, of the full payload length. *)
Theorem sendLoopDecoy_unreliable name provider id surbID key eta now s s' :
  sendLoopDecoy UserForwardPayloadLength (name, provider, None) id surbID
                (key, eta, None) now s = Ret (s', None) ->
  tq s' = tq s /\ messageIDMap s' = messageIDMap s /\
  replyNotifyMap s' = replyNotifyMap s /\
  surbIDMap s' = <[surbID := nextptr s]> (surbIDMap s) /\
  exists m, heap s' !! nextptr s = Some m /\
    Payload m = replicate UserForwardPayloadLength 0 /\
    Reliable m = false /\ Transmissions m = 1.
Proof.
  unfold sendLoopDecoy, alloc_msg, doSend. cbn.
  rewrite lookup_insert_eq. cbn.
  intros [= <-]. cbn. repeat split.
  eexists. split; [apply lookup_insert_eq|]. done.
Qed.

(** X15. A [WaitForReply] that returns gives the [Reply] of the message
    registered under the identifier, changes no message, and leaves the
    mutex held: a second [WaitForReply] for the identifier blocks. *)
Theorem WaitForReply_takes_lock id s s' reply :
  WaitForReply (Some id) s = WaitReturned s' reply ->
  (exists p m, messageIDMap s !! id = Some p /\ heap s !! p = Some m /\
     reply = Reply m) /\
  heap s' = heap s /\
  WaitForReply (Some id) s' = WaitBlocked.
Proof.
  unfold WaitForReply. cbn.
  destruct (replyNotifyMap s !! id) as [lk|] eqn:Hlk; [|discriminate].
  destruct (mutexes s !! lk) as [[|]|] eqn:Hmx; try discriminate.
  destruct (messageIDMap s !! id) as [p|] eqn:Hp; [|discriminate].
  destruct (heap s !! p) as [m|] eqn:Hm; [|discriminate].
  intros [= <- <-]. cbn. split; [by exists p, m|]. split; [done|].
  rewrite Hlk. by rewrite lookup_insert_eq.
Qed.

(** The operations keep every registration in order. *)
Lemma op_step_registered_ok s s' :
  registered_ok s ->
  op_step UserForwardPayloadLength SurbTypeKaetzchen SurbTypeACK s s' ->
  registered_ok s'.
Proof.
  intros Hok Hstep.
  assert (Hdo : forall surbID tx now msg s0 s1 e,
             registered_ok s0 -> doSend surbID tx now msg s0 = Ret (s1, e) ->
             registered_ok s1).
  { intros surbID tx now msg s0 s1 e H0 Hd id lk Hlk.
    destruct (doSend_untouched _ _ _ _ _ _ _ Hd) as (Hr & Hmi & Hmx & _ & _ & Hdom & _).
    rewrite Hr in Hlk. destruct (H0 id lk Hlk) as [Hs (p & Hp & Hh)].
    rewrite Hmx, Hmi. split; [done|]. exists p. split; [done|].
    apply elem_of_dom. rewrite Hdom. by apply elem_of_dom. }
  destruct Hstep as [s recipient provider message reliable query id0 s' r e Hs
                    |s surbID tx now s' e Hs
                    |s surbID tx now msg s' e Hs
                    |s svc id0 surbID tx now s' e Hs
                    |s msgId s' reply Hs
                    |s now ev a' Hs
                    |s m a' e Hs].
  - unfold SendMessage, composeMessage in Hs.
    destruct (UserForwardPayloadLength <? length message)%nat.
    { injection Hs as <- <- <-. exact Hok. }
    cbn in Hs.
    assert (Hgoal : registered_ok
      (mkSession (<[nextptr s := set_reliable reliable
                     (mkMessage (Some id0) recipient provider
                        (pad UserForwardPayloadLength message) 0 0 None [] []
                        (if query then SurbTypeKaetzchen else SurbTypeACK) false 0)]>
                    (heap s))
                 (<[Pos.succ (nextptr s) := true]> (mutexes s))
                 (Pos.succ (Pos.succ (nextptr s)))
                 (<[id0 := Pos.succ (nextptr s)]> (replyNotifyMap s))
                 (<[id0 := nextptr s]> (messageIDMap s))
                 (surbIDMap s) (tq s) (egressQueue s) (log s ++ ["SendMessage"]))).
    { intros id lk. cbn. destruct (decide (id0 = id)) as [->|Hne].
      - rewrite !lookup_insert_eq. intros [= <-].
        rewrite lookup_insert_eq. split; [by eexists|].
        eexists. split; [done|]. rewrite lookup_insert_eq. by eexists.
      - rewrite !lookup_insert_ne by done. intros Hlk.
        destruct (Hok id lk Hlk) as [Hs' (p & Hp & Hh)].
        split; [by (apply lookup_insert_is_Some'; right)|].
        exists p. rewrite lookup_insert_ne by done.
        split; [done|]. by (apply lookup_insert_is_Some'; right). }
    destruct (eg_Push _ _) as [e' [er|]]; injection Hs as <- <- <-;
      intros id lk Hlk; exact (Hgoal id lk Hlk).
  - unfold sendNext in Hs.
    destruct (eg_Peek (egressQueue s)) as [[msg|] [err|]]; try discriminate;
      try (injection Hs as <- <-; exact Hok).
    destruct (heap s !! msg) as [m|]; [|discriminate].
    destruct (decide (Provider m = "")); [discriminate|].
    destruct (doSend surbID tx now msg s) as [[s1 [e1|]]|] eqn:Hd; cbn in Hs;
      try discriminate.
    + injection Hs as <- <-. by eapply Hdo.
    + destruct (eg_Pop (egressQueue s1)) as [e' [o err]].
      injection Hs as <- <-.
      intros id lk Hlk. exact (Hdo _ _ _ _ _ _ _ Hok Hd id lk Hlk).
  - by eapply Hdo.
  - unfold sendLoopDecoy in Hs. destruct svc as [[name provider] [err|]].
    { injection Hs as <- <-. exact Hok. }
    cbn in Hs. eapply Hdo; [|exact Hs].
    intros id lk Hlk. cbn in *. destruct (Hok id lk Hlk) as [Hs' (p & Hp & Hh)].
    split; [done|]. exists p. split; [done|].
    by (apply lookup_insert_is_Some'; right).
  - unfold WaitForReply in Hs. destruct msgId as [id0|]; [|discriminate].
    cbn in Hs.
    destruct (replyNotifyMap s !! id0) as [lk0|]; [|discriminate].
    destruct (mutexes s !! lk0) as [[|]|]; try discriminate.
    destruct (messageIDMap s !! id0) as [p0|]; [|discriminate].
    destruct (heap s !! p0); [|discriminate].
    injection Hs as <- <-. intros id lk Hlk. cbn in *.
    destruct (Hok id lk Hlk) as [Hs' Hrest].
    split; [by (apply lookup_insert_is_Some'; right)|done].
  - exact Hok.
  - exact Hok.
Qed.

(** X16. In a session where every registered identifier has its mutex and
    its message, as in a new session, this stays so through any number
    of operations of the send pipeline and of the delay queue: a
    [WaitForReply] for a registered identifier blocks or returns, it never
    faults. *)
Theorem registered_ids_never_fault s s' id :
  registered_ok s ->
  evolves UserForwardPayloadLength SurbTypeKaetzchen SurbTypeACK s s' ->
  is_Some (replyNotifyMap s' !! id) ->
  WaitForReply (Some id) s' = WaitBlocked \/
  exists s'' reply, WaitForReply (Some id) s' = WaitReturned s'' reply.
Proof.
  intros Hok Hev.
  assert (Hok' : registered_ok s').
  { induction Hev as [|s0 s1 s2 Hstep _ IH]; [done|].
    apply IH. by eapply op_step_registered_ok. }
  intros [lk Hlk].
  destruct (Hok' id lk Hlk) as [[b Hb] (p & Hp & [m Hm])].
  unfold WaitForReply. cbn. rewrite Hlk, Hb.
  destruct b; [by left|]. right. cbn. rewrite Hp, Hm. eauto.
Qed.

End MoreSendFacts.

Lemma doSend_success_witness :
  exists s', doSend [101] ([8], 2 * sec, None) (3 * sec) 1%positive demo2w = Ret (s', None) /\
    heap s' = <[1%positive := sent [8] (3 * sec) (2 * sec)
                  (mkMessage (Some [42]) "alice" "provider" [1; 2; 3; 0; 0; 0; 0; 0]
                             0 (2 * sec) None [7] [] 1 true 1)]> (heap demo2w) /\
    Key (sent [8] (3 * sec) (2 * sec)
           (mkMessage (Some [42]) "alice" "provider" [1; 2; 3; 0; 0; 0; 0; 0]
                      0 (2 * sec) None [7] [] 1 true 1)) = [8] /\
    SentAt (sent [8] (3 * sec) (2 * sec)
           (mkMessage (Some [42]) "alice" "provider" [1; 2; 3; 0; 0; 0; 0; 0]
                      0 (2 * sec) None [7] [] 1 true 1)) = 3 * sec /\
    ReplyETA (sent [8] (3 * sec) (2 * sec)
           (mkMessage (Some [42]) "alice" "provider" [1; 2; 3; 0; 0; 0; 0; 0]
                      0 (2 * sec) None [7] [] 1 true 1)) = 2 * sec /\
    Transmissions (sent [8] (3 * sec) (2 * sec)
           (mkMessage (Some [42]) "alice" "provider" [1; 2; 3; 0; 0; 0; 0; 0]
                      0 (2 * sec) None [7] [] 1 true 1)) = wrap64 (1 + 1) /\
    surbIDMap s' = <[ [101] := 1%positive]> (surbIDMap demo2w) /\
    priq (tq s') ≡ₚ
      [mkEntry (expiry (sent [8] (3 * sec) (2 * sec)
           (mkMessage (Some [42]) "alice" "provider" [1; 2; 3; 0; 0; 0; 0; 0]
                      0 (2 * sec) None [7] [] 1 true 1))) 1%positive]
        ++ priq (tq demo2w).
Proof.
  apply (doSend_success [101] [8] (2 * sec) (3 * sec) 1%positive demo2w
           (mkMessage (Some [42]) "alice" "provider" [1; 2; 3; 0; 0; 0; 0; 0]
                      0 (2 * sec) None [7] [] 1 true 1));
    vm_compute; reflexivity.
Defined.

Lemma deadline_after_transmission_witness :
  expiry (sent [8] (3 * sec) (2 * sec) early_msg)
    = 3 * sec + 2 * sec / 2 + (Transmissions early_msg + 2) * (2 * sec).
Proof.
  apply deadline_after_transmission; vm_compute; (discriminate || done || (split; discriminate)).
Defined.

Lemma doSend_frame_witness :
  replyNotifyMap demo3 = replyNotifyMap demo2w /\ messageIDMap demo3 = messageIDMap demo2w /\
  mutexes demo3 = mutexes demo2w /\ egressQueue demo3 = egressQueue demo2w /\
  nextQ (tq demo3) = nextQ (tq demo2w) /\ dom (heap demo3) = dom (heap demo2w) /\
  forall old, old ≠ [101] -> surbIDMap demo3 !! old = surbIDMap demo2w !! old.
Proof.
  apply (doSend_frame [101] ([8], 2 * sec, None) (3 * sec) 1%positive demo2w demo3 None).
  vm_compute. reflexivity.
Defined.

Lemma SendMessage_push_failure_witness :
  let s' := logf "SendMessage"
              (mkSession {[1%positive := mkMessage (Some [42]) "alice" "provider"
                             [1; 2; 3; 0; 0; 0; 0; 0] 0 0 None [] [] 1 true 0]}
                         {[2%positive := true]} 3%positive {[ [42] := 2%positive]}
                         {[ [42] := 1%positive]} ∅ (tq (new_session 0))
                         (egressQueue (new_session 0)) []) in
  messageIDMap s' !! [42] = Some (nextptr (new_session 0)) /\
  is_Some (heap s' !! nextptr (new_session 0)) /\
  WaitForReply (Some [42]) s' = WaitBlocked.
Proof.
  apply (SendMessage_push_failure 8 1 0 "alice" "provider" [1; 2; 3] true true [42]
           (new_session 0) _ "queue is full").
  - vm_compute. reflexivity.
  - vm_compute. lia.
Defined.

Lemma SendMessage_success_witness :
  [42] = [42] /\
  messageIDMap demo1 !! [42] = Some (nextptr demo0) /\
  (exists m, heap demo1 !! nextptr demo0 = Some m /\
     Payload m = pad 8 [1; 2; 3] /\
     Reliable m = true /\ Transmissions m = 0 /\ ID m = Some [42]) /\
  (forall p, p ≠ nextptr demo0 -> heap demo1 !! p = heap demo0 !! p) /\
  surbIDMap demo1 = surbIDMap demo0 /\ tq demo1 = tq demo0.
Proof.
  apply (SendMessage_success 8 1 0 "alice" "provider" [1; 2; 3] true true [42]
           demo0 demo1 [42]).
  vm_compute. reflexivity.
Defined.

Lemma sendNext_pops_after_send_witness :
  (exists msg s1, fst (eg_Peek (egressQueue demo1)) = Some msg /\
     doSend [100] ([7], 2 * sec, None) 0 msg demo1 = Ret (s1, None) /\
     demo2 = set_egress (fst (eg_Pop (egressQueue s1))) s1 /\
     None = snd (snd (eg_Pop (egressQueue s1)))) \/
  (is_Some (@None error) /\ egressQueue demo2 = egressQueue demo1).
Proof.
  apply (sendNext_pops_after_send [100] ([7], 2 * sec, None) 0 demo1 demo2 None).
  vm_compute. reflexivity.
Defined.

Lemma sendLoopDecoy_unreliable_witness :
  let s' := after demo0 (sendLoopDecoy 8 ("loop", "provider", None) [50] [60]
                           ([6], 2 * sec, None) sec demo0) in
  tq s' = tq demo0 /\ messageIDMap s' = messageIDMap demo0 /\
  replyNotifyMap s' = replyNotifyMap demo0 /\
  surbIDMap s' = <[ [60] := nextptr demo0]> (surbIDMap demo0) /\
  exists m, heap s' !! nextptr demo0 = Some m /\
    Payload m = replicate 8 0 /\
    Reliable m = false /\ Transmissions m = 1.
Proof.
  apply (sendLoopDecoy_unreliable 8 "loop" "provider" [50] [60] [6] (2 * sec) sec demo0).
  vm_compute. reflexivity.
Defined.

Lemma WaitForReply_takes_lock_witness :
  let s := mkSession (heap demo1) {[2%positive := false]} (nextptr demo1)
                     (replyNotifyMap demo1) (messageIDMap demo1) (surbIDMap demo1)
                     (tq demo1) (egressQueue demo1) (log demo1) in
  let s' := mkSession (heap demo1) {[2%positive := true]} (nextptr demo1)
                      (replyNotifyMap demo1) (messageIDMap demo1) (surbIDMap demo1)
                      (tq demo1) (egressQueue demo1)
                      (log demo1 ++ ["WaitForReply message ID: %x"]) in
  (exists p m, messageIDMap s !! [42] = Some p /\ heap s !! p = Some m /\
     [] = Reply m) /\
  heap s' = heap s /\
  WaitForReply (Some [42]) s' = WaitBlocked.
Proof.
  apply (WaitForReply_takes_lock [42]
           (mkSession (heap demo1) {[2%positive := false]} (nextptr demo1)
                     (replyNotifyMap demo1) (messageIDMap demo1) (surbIDMap demo1)
                     (tq demo1) (egressQueue demo1) (log demo1))).
  vm_compute. reflexivity.
Defined.

Lemma registered_ids_never_fault_witness :
  WaitForReply (Some [42]) demo1 = WaitBlocked \/
  exists s'' reply, WaitForReply (Some [42]) demo1 = WaitReturned s'' reply.
Proof.
  apply (registered_ids_never_fault 8 1 0 demo0 demo1 [42]).
  - intros id lk Hlk. vm_compute in Hlk. discriminate.
  - apply rtc_once.
    apply (step_SendMessage 8 1 0 demo0 "alice" "provider" [1; 2; 3] true true [42]
             demo1 (Some [42]) None).
    vm_compute. reflexivity.
  - vm_compute. by eexists.
Defined.

(** ** The callbacks of package client, continued *)

Section MoreClientFacts.
Context {PK St C A : Type}.
Context `{!Client.Crypto PK} `{!Client.Storage St}
        `{!Client.MessageConsumer C PK} `{!Client.ARQScheduler A}.
Variable reassemble : list (Client.IngressBlock PK) -> list Z * option error.

Implicit Types s : Client.Session St C A.


(** X17. Round trip of [IngressBlock]: when the key and the block survive
    their own serialization and the key is written on [PublicKeySize]
    bytes, [FromBytes] of [ToBytes] gives back the sender key and the
    block, under version 0 whatever the version of the original. *)
Theorem IngressBlock_round_trip (i : Client.IngressBlock PK) rawKey rawBlock :
  Client.pk_MarshalBinary (Client.SenderPubKey i) = (rawKey, None) ->
  length rawKey = Client.PublicKeySize ->
  Client.pk_FromBytes rawKey = (Client.SenderPubKey i, None) ->
  Client.block_ToBytes (Client.Block i) = (rawBlock, None) ->
  Client.block_FromBytes rawBlock = (Client.Block i, None) ->
  Client.ToBytes i = (Client.IngressBlockVersion :: rawKey ++ rawBlock, None) /\
  Client.FromBytes (Client.IngressBlockVersion :: rawKey ++ rawBlock)
    = Ret (inl (Client.mkIngressBlock Client.IngressBlockVersion
                  (Client.SenderPubKey i) (Client.Block i))).
Proof.
  intros Hk Hl Hk' Hb Hb'. split.
  - unfold Client.ToBytes. by rewrite Hk, Hb.
  - unfold Client.FromBytes.
    destruct (length (Client.IngressBlockVersion :: rawKey ++ rawBlock)
              <? S Client.PublicKeySize)%nat eqn:Hlt.
    { apply Nat.ltb_lt in Hlt. cbn in Hlt. rewrite length_app in Hlt. lia. }
    cbn [drop]. rewrite drop_0.
    rewrite take_app_length' by done.
    rewrite Hk'. rewrite drop_app_length' by done. by rewrite Hb'.
Qed.

(** X18. [FromBytes] never refuses a version: what it reads from a buffer
    that starts with one version byte it reads from the same buffer under
    any other, and the byte ends up in [Version]. *)
Theorem FromBytes_ignores_version v v' rest (ib : Client.IngressBlock PK) :
  Client.FromBytes (v :: rest) = Ret (inl ib) ->
  Client.Version ib = v /\
  Client.FromBytes (v' :: rest)
    = Ret (inl (Client.mkIngressBlock v' (Client.SenderPubKey ib) (Client.Block ib))).
Proof.
  unfold Client.FromBytes. cbn [length drop].
  destruct (S (length rest) <? S Client.PublicKeySize)%nat; [discriminate|].
  destruct (Client.pk_FromBytes _) as [k [e|]]; [discriminate|].
  destruct (Client.block_FromBytes _) as [b [e|]]; [discriminate|].
  by intros [= <-].
Qed.

(** X19. A buffer of at most [PublicKeySize] bytes makes [FromBytes]
    panic, and one such buffer among the stored fragments makes
    [onMessage] panic for every later fragment of that message. *)
Theorem short_block_panics ct s rBlock pk st stored short later raw :
  (length short <= Client.PublicKeySize)%nat ->
  Client.DecryptBlock ct = inl (rBlock, pk) ->
  block.TotalBlocks rBlock ≠ 1 ->
  Client.GetIngressBlocks (Client.storage s) (block.MessageID rBlock)
    = (st, (stored ++ short :: later, None)) ->
  Client.ToBytes (Client.mkIngressBlock 0 pk rBlock) = (raw, None) ->
  Forall (fun b => exists ib, Client.FromBytes b = Ret (inl ib)) stored ->
  (exists why, Client.FromBytes (PK := PK) short = Panic why) /\
  exists why, Client.onMessage reassemble ct s = Panic why.
Proof.
  intros Hl Hd Ht Hg Hb Hst.
  assert (Hp : exists why, Client.FromBytes (PK := PK) short = Panic why).
  { unfold Client.FromBytes. destruct short as [|v short']; [eauto|].
    destruct (length (v :: short') <? S Client.PublicKeySize)%nat eqn:Hlt;
      [eauto|]. apply Nat.ltb_ge in Hlt. cbn in *. lia. }
  split; [exact Hp|]. destruct Hp as [why Hp].
  assert (Hda : forall tl, exists why',
             Client.decode_all (stored ++ short :: tl) = Panic why').
  { intros tl. clear Hg. induction Hst as [|b stored' [ib Hib] _ IH]; cbn.
    - rewrite Hp. cbn. eauto.
    - rewrite Hib. cbn. destruct IH as [why' ->]. cbn. eauto. }
  unfold Client.onMessage. rewrite Hd.
  destruct (block.TotalBlocks rBlock =? 1) eqn:Hone; [apply Z.eqb_eq in Hone; done|].
  cbn. rewrite Hg, Hb. rewrite <- app_assoc. cbn [app].
  destruct (Hda (later ++ [raw])) as [why' ->]. cbn. eauto.
Qed.

(** X20. [onMessage] calls the consumer exactly when it returns no error:
    a call that returns [nil] has made one [ReceivedMessage], a call that
    returns an error has left the consumer alone. *)
Theorem onMessage_notifies_iff_nil ct s s' e :
  Client.onMessage reassemble ct s = Ret (s', e) ->
  match e with
  | None => exists pk msg,
      Client.messageConsumer s'
        = Client.ReceivedMessage (Client.messageConsumer s) pk msg
  | Some _ => Client.messageConsumer s' = Client.messageConsumer s
  end.
Proof.
  unfold Client.onMessage.
  destruct (Client.DecryptBlock ct) as [[rBlock pk]|err].
  2: { by intros [= <- <-]. }
  destruct (block.TotalBlocks rBlock =? 1).
  { intros [= <- <-]. by exists pk, (block.Payload rBlock). }
  destruct (Client.GetIngressBlocks _ _) as [st [stored [e0|]]].
  { by intros [= <- <-]. }
  destruct (Client.ToBytes _) as [raw [e0|]].
  { by intros [= <- <-]. }
  destruct (Client.decode_all _) as [[ibs|e0]|w]; cbn; try discriminate.
  2: { by intros [= <- <-]. }
  destruct (reassemble ibs) as [msg [e0|]].
  - destruct (Client.PutIngressBlock _ _ _) as [st' [e'|]].
    + by intros [= <- <-].
    + intros [= <- <-]. by exists pk, msg.
  - intros [= <- <-]. by exists pk, msg.
Qed.

(** X21. A block that is a whole message ([TotalBlocks = 1]) is handed to
    the consumer at once, with its payload, and the storage is not
    consulted. *)
Theorem onMessage_single_block ct s rBlock pk :
  Client.DecryptBlock ct = inl (rBlock, pk) ->
  block.TotalBlocks rBlock = 1 ->
  exists s', Client.onMessage reassemble ct s = Ret (s', None) /\
    Client.messageConsumer s'
      = Client.ReceivedMessage (Client.messageConsumer s) pk (block.Payload rBlock) /\
    Client.storage s' = Client.storage s /\
    Client.surbKeyMap s' = Client.surbKeyMap s.
Proof.
  intros Hd Ht. unfold Client.onMessage. rewrite Hd, Ht. cbn. eauto.
Qed.

(** X22. The fragment that completes a message is delivered and not
    stored: when [reassemble] succeeds the storage is the one
    [GetIngressBlocks] left, so [onMessage] neither keeps the last
    fragment nor discards the earlier ones. *)
Theorem onMessage_complete_not_stored ct s rBlock pk st stored raw ibs msg :
  Client.DecryptBlock ct = inl (rBlock, pk) ->
  block.TotalBlocks rBlock ≠ 1 ->
  Client.GetIngressBlocks (Client.storage s) (block.MessageID rBlock)
    = (st, (stored, None)) ->
  Client.ToBytes (Client.mkIngressBlock 0 pk rBlock) = (raw, None) ->
  Client.decode_all (stored ++ [raw]) = Ret (inl ibs) ->
  reassemble ibs = (msg, None) ->
  exists s', Client.onMessage reassemble ct s = Ret (s', None) /\
    Client.storage s' = st /\
    Client.messageConsumer s'
      = Client.ReceivedMessage (Client.messageConsumer s) pk msg.
Proof.
  intros Hd Ht Hg Hb Hda Hr. unfold Client.onMessage. rewrite Hd.
  destruct (block.TotalBlocks rBlock =? 1) eqn:Hone; [apply Z.eqb_eq in Hone; done|].
  cbn. rewrite Hg, Hb, Hda. cbn. rewrite Hr. cbn. eauto.
Qed.

(** X23. When the identifier of the manifest is new, [AddSURBKeys] files
    the keys of the manifest under its argument and keeps them there even
    when the storage then fails: the error of the storage is returned and
    the entry stays.  No other entry changes. *)
Theorem AddSURBKeys_registers surbid manifest s mid :
  Client.SURBID manifest = Some mid ->
  Client.surbKeyMap s !! mid = None ->
  exists s', Client.AddSURBKeys surbid manifest s
               = Ret (s', snd (Client.st_AddSURBKeys (Client.storage s) surbid manifest)) /\
    Client.surbKeyMap s' !! surbid = Some (Client.SURBKeys manifest) /\
    (forall other, other ≠ surbid ->
       Client.surbKeyMap s' !! other = Client.surbKeyMap s !! other) /\
    Client.storage s' = fst (Client.st_AddSURBKeys (Client.storage s) surbid manifest).
Proof.
  intros Hm Hk. unfold Client.AddSURBKeys. rewrite Hm, Hk. cbn.
  destruct (Client.st_AddSURBKeys _ _ _) as [st err]. cbn.
  eexists. split; [reflexivity|]. cbn.
  split; [apply lookup_insert_eq|]. split; [|done].
  intros other Ho. by rewrite lookup_insert_ne.
Qed.


(** X25. [onACK] leaves every other identifier in the map, never adds
    one, and never calls the consumer: not even a valid acknowledgement
    leads to [ReceivedACK]. *)
Theorem onACK_frame surbid message s :
  let s' := fst (Client.onACK surbid message s) in
  Client.messageConsumer s' = Client.messageConsumer s /\
  Client.surbKeyMap s' = delete surbid (Client.surbKeyMap s).
Proof.
  unfold Client.onACK. cbn.
  destruct (Client.surbKeyMap s !! surbid) eqn:Hk.
  2: { cbn. split; [done|]. by rewrite delete_id. }
  destruct (Client.RemoveSURBKey _ _) as [st [e|]]; cbn; [done|].
  destruct (Client.DecryptSURBPayload _ _) as [pt [e|]]; cbn; [done|].
  destruct (negb _); cbn; [done|].
  by destruct (Client.CancelRetransmission _ _) as [a [e|]].
Qed.

(** X26. A second acknowledgement for the same SURB identifier, whatever
    its payload, changes nothing but the log: keys, storage, scheduler and
    consumer are as the first one left them. *)
Theorem onACK_second_is_inert surbid message message' s :
  let s1 := fst (Client.onACK surbid message s) in
  let s2 := fst (Client.onACK surbid message' s1) in
  snd (Client.onACK surbid message' s1) = None /\
  Client.surbKeyMap s2 = Client.surbKeyMap s1 /\
  Client.storage s2 = Client.storage s1 /\
  Client.arqScheduler s2 = Client.arqScheduler s1 /\
  Client.messageConsumer s2 = Client.messageConsumer s1 /\
  Client.log s2 = Client.log s1
                    ++ ["OnACK"; "failure: SURB key not found for received ACK"].
Proof.
  cbn. rewrite (onACK_unknown surbid message' _ (onACK_consumes surbid message s)).
  cbn. repeat split. by rewrite <- app_assoc.
Qed.

End MoreClientFacts.

Lemma IngressBlock_round_trip_witness :
  let i := Client.mkIngressBlock 5 [7; 7] (block.mkBlock [9] 3 0 [10; 11]) in
  Client.ToBytes i = (Client.IngressBlockVersion :: [7; 7] ++ [1; 9; 3; 0; 10; 11], None) /\
  Client.FromBytes (Client.IngressBlockVersion :: [7; 7] ++ [1; 9; 3; 0; 10; 11])
    = Ret (inl (Client.mkIngressBlock Client.IngressBlockVersion
                  (Client.SenderPubKey i) (Client.Block i))).
Proof.
  apply (IngressBlock_round_trip
           (Client.mkIngressBlock 5 [7; 7] (block.mkBlock [9] 3 0 [10; 11]))
           [7; 7] [1; 9; 3; 0; 10; 11]); reflexivity.
Defined.

Lemma FromBytes_ignores_version_witness :
  let ib := Client.mkIngressBlock 0 [7; 7] (block.mkBlock [9] 3 0 [10; 11]) in
  Client.Version ib = 0 /\
  Client.FromBytes (4 :: [7; 7; 1; 9; 3; 0; 10; 11])
    = Ret (inl (Client.mkIngressBlock 4 (Client.SenderPubKey ib) (Client.Block ib))).
Proof.
  apply (FromBytes_ignores_version 0 4 [7; 7; 1; 9; 3; 0; 10; 11]
           (Client.mkIngressBlock 0 [7; 7] (block.mkBlock [9] 3 0 [10; 11]))).
  reflexivity.
Defined.

Lemma short_block_panics_witness :
  (exists why, Client.FromBytes (PK := list Z) [0] = Panic why) /\
  exists why,
    Client.onMessage Client.reassemble_spec (fragment 1 [30])
      (Client.toy_session (Client.mkMem {[ [9] := [[0]] ]} ∅ false) ∅ (Client.mkArq []))
    = Panic why.
Proof.
  apply (short_block_panics Client.reassemble_spec (fragment 1 [30])
           (Client.toy_session (Client.mkMem {[ [9] := [[0]] ]} ∅ false) ∅ (Client.mkArq []))
           (block.mkBlock [9] 3 1 [30]) [7; 7]
           (Client.mkMem {[ [9] := [[0]] ]} ∅ false) [] [0] []
           [0; 7; 7; 1; 9; 3; 1; 30]).
  - vm_compute. lia.
  - reflexivity.
  - discriminate.
  - vm_compute. reflexivity.
  - reflexivity.
  - constructor.
Defined.

Lemma onMessage_notifies_iff_nil_witness :
  exists pk msg,
    Client.messageConsumer (deliver (fragment 0 [10; 11]) client0)
      = Client.ReceivedMessage (Client.messageConsumer client0) pk msg.
Proof.
  apply (onMessage_notifies_iff_nil Client.reassemble_spec (fragment 0 [10; 11])
           client0 (deliver (fragment 0 [10; 11]) client0) None).
  vm_compute. reflexivity.
Defined.

Lemma onMessage_single_block_witness :
  exists s', Client.onMessage Client.reassemble_spec ([7; 7] ++ [1; 9; 1; 0; 10]) client0
               = Ret (s', None) /\
    Client.messageConsumer s'
      = Client.ReceivedMessage (Client.messageConsumer client0) [7; 7] [10] /\
    Client.storage s' = Client.storage client0 /\
    Client.surbKeyMap s' = Client.surbKeyMap client0.
Proof.
  apply (onMessage_single_block Client.reassemble_spec ([7; 7] ++ [1; 9; 1; 0; 10])
           client0 (block.mkBlock [9] 1 0 [10]) [7; 7]); reflexivity.
Defined.

Lemma onMessage_complete_not_stored_witness :
  let s := deliver (fragment 2 [20]) (deliver (fragment 0 [10; 11]) client0) in
  exists s', Client.onMessage Client.reassemble_spec (fragment 1 [30]) s = Ret (s', None) /\
    Client.storage s' = Client.storage s /\
    Client.messageConsumer s'
      = Client.ReceivedMessage (Client.messageConsumer s) [7; 7] [10; 11; 30; 20].
Proof.
  apply (onMessage_complete_not_stored Client.reassemble_spec (fragment 1 [30])
           (deliver (fragment 2 [20]) (deliver (fragment 0 [10; 11]) client0))
           (block.mkBlock [9] 3 1 [30]) [7; 7]
           (Client.storage (deliver (fragment 2 [20]) (deliver (fragment 0 [10; 11]) client0)))
           [[0; 7; 7; 1; 9; 3; 0; 10; 11]; [0; 7; 7; 1; 9; 3; 2; 20]]
           [0; 7; 7; 1; 9; 3; 1; 30]
           [Client.mkIngressBlock 0 [7; 7] (block.mkBlock [9] 3 0 [10; 11]);
            Client.mkIngressBlock 0 [7; 7] (block.mkBlock [9] 3 2 [20]);
            Client.mkIngressBlock 0 [7; 7] (block.mkBlock [9] 3 1 [30])]
           [10; 11; 30; 20]).
  - reflexivity.
  - discriminate.
  - vm_compute. reflexivity.
  - reflexivity.
  - vm_compute. reflexivity.
  - vm_compute. reflexivity.
Defined.

Lemma AddSURBKeys_registers_witness :
  let manifest := Client.mkEgressBlock true "alice" "provider" 0 (Some [9]) []
                    0 (Some [6]) [3; 4] in
  exists s', Client.AddSURBKeys [6] manifest (acking true)
               = Ret (s', snd (Client.st_AddSURBKeys (Client.storage (acking true)) [6] manifest)) /\
    Client.surbKeyMap s' !! [6] = Some (Client.SURBKeys manifest) /\
    (forall other, other ≠ [6] ->
       Client.surbKeyMap s' !! other = Client.surbKeyMap (acking true) !! other) /\
    Client.storage s' = fst (Client.st_AddSURBKeys (Client.storage (acking true)) [6] manifest).
Proof.
  apply (AddSURBKeys_registers [6]
           (Client.mkEgressBlock true "alice" "provider" 0 (Some [9]) [] 0 (Some [6]) [3; 4])
           (acking true) [6]).
  - reflexivity.
  - vm_compute. reflexivity.
Defined.


(** ** Sending from package client *)

Section SendingFacts.
Context {PK St C A SQ : Type}.
Context `{!Client.Storage St} `{!ClientSend.UserKeyDiscovery PK}
        `{!ClientSend.Encryptor PK} `{!ClientSend.SendQueue SQ}.

Implicit Types st : ClientSend.Sending St C A SQ.

(** The loop of [Send] queues one block per ciphertext block, in order,
    numbered from [k]; it touches neither the keys, the scheduler nor the
    consumer. *)
Lemma Send_loop_queue recipient provider messageID blocks : forall k st,
  let st' := ClientSend.Send_loop recipient provider messageID k blocks st in
  ClientSend.sendQueue st'
    = foldl ClientSend.sq_Enqueue (ClientSend.sendQueue st)
        (imap (fun i blk =>
                 ClientSend.egress_block true recipient provider messageID (k + i) blk)
              blocks) /\
  Client.surbKeyMap (ClientSend.sess st') = Client.surbKeyMap (ClientSend.sess st) /\
  Client.messageConsumer (ClientSend.sess st')
    = Client.messageConsumer (ClientSend.sess st) /\
  Client.arqScheduler (ClientSend.sess st') = Client.arqScheduler (ClientSend.sess st).
Proof.
  induction blocks as [|blk rest IH]; intros k st; cbn; [done|].
  destruct (Client.PutEgressBlock _ _ _) as [sto err].
  match goal with
  | |- context [ClientSend.Send_loop _ _ _ _ _ ?x] =>
      destruct (IH (S k) x) as (Hq & Hm & Hc & Ha)
  end.
  rewrite Hq, Hm, Hc, Ha. cbn. rewrite Nat.add_0_r.
  split; [|by destruct err].
  f_equal. apply imap_ext. intros i x _. cbn. do 2 f_equal. lia.
Qed.

Lemma SendUnreliable_loop_queue recipient provider messageID blocks : forall k st,
  let st' := ClientSend.SendUnreliable_loop recipient provider messageID k blocks st in
  ClientSend.sendQueue st'
    = foldl ClientSend.sq_Enqueue (ClientSend.sendQueue st)
        (imap (fun i blk =>
                 ClientSend.egress_block false recipient provider messageID (k + i) blk)
              blocks) /\
  Client.log (ClientSend.sess st') = Client.log (ClientSend.sess st).
Proof.
  induction blocks as [|blk rest IH]; intros k st; cbn; [done|].
  destruct (Client.PutEgressBlock _ _ _) as [sto err].
  match goal with
  | |- context [ClientSend.SendUnreliable_loop _ _ _ _ _ ?x] =>
      destruct (IH (S k) x) as (Hq & Hl)
  end.
  rewrite Hq, Hl. cbn. rewrite Nat.add_0_r. split; [|done].
  f_equal. apply imap_ext. intros i x _. cbn. do 2 f_equal. lia.
Qed.

(** X27. When the key is found and the message encrypts, [Send] returns
    the message identifier and no error and has queued one reliable block
    per ciphertext block, in order, numbered from 0 (modulo 2^16) and
    without a SURB, whatever the storage answered for each of them. *)
Theorem Send_queues_every_block recipient provider message messageID key blocks st :
  ClientSend.ukd_Get recipient = (key, None) ->
  ClientSend.EncryptMessage messageID message key = (blocks, None) ->
  exists st',
    ClientSend.Send recipient provider message (messageID, None) st
      = (st', Some messageID, None) /\
    ClientSend.sendQueue st'
      = foldl ClientSend.sq_Enqueue (ClientSend.sendQueue st)
          (imap (fun i blk =>
                   Client.mkEgressBlock true recipient provider
                     (Z.of_nat i mod 2 ^ 16) (Some messageID) blk
                     ClientSend.zero_time None [])
                blocks) /\
    Client.surbKeyMap (ClientSend.sess st') = Client.surbKeyMap (ClientSend.sess st).
Proof.
  intros Hk He. unfold ClientSend.Send. rewrite Hk, He.
  eexists. split; [reflexivity|].
  match goal with
  | |- context [ClientSend.Send_loop _ _ _ 0 _ ?x] =>
      destruct (Send_loop_queue recipient provider messageID blocks 0%nat x)
        as (Hq & Hm & _)
  end.
  by rewrite Hq, Hm.
Qed.

(** X28. [SendUnreliable] asks for the key of [recipient@provider] and
    refuses a [nil] key with nothing queued; with a key it queues one
    unreliable block per ciphertext block, in order, and no storage
    failure is reported or logged. *)
Theorem SendUnreliable_queues_every_block recipient provider message messageID key blocks st :
  ClientSend.ukd_Get (String.append recipient (String.append "@" provider))
    = (key, None) ->
  (forall k, key = Some k ->
     ClientSend.EncryptMessage messageID message (Some k) = (blocks, None)) ->
  exists st',
    ClientSend.SendUnreliable recipient provider message (messageID, None) st
      = (st', match key with Some _ => None | None => Some "nil recipient key" end) /\
    ClientSend.sendQueue st'
      = foldl ClientSend.sq_Enqueue (ClientSend.sendQueue st)
          (match key with
           | Some _ =>
               imap (fun i blk =>
                       Client.mkEgressBlock false recipient provider
                         (Z.of_nat i mod 2 ^ 16) (Some messageID) blk
                         ClientSend.zero_time None [])
                    blocks
           | None => []
           end) /\
    Client.log (ClientSend.sess st')
      = Client.log (ClientSend.sess st)
          ++ "SendUnreliable"
               :: match key with Some _ => ["recipient key: %s"] | None => [] end.
Proof.
  intros Hk He. unfold ClientSend.SendUnreliable. rewrite Hk.
  destruct key as [k|]; [|eexists; split; [reflexivity|done]].
  rewrite (He k eq_refl).
  eexists. split; [reflexivity|].
  match goal with
  | |- context [ClientSend.SendUnreliable_loop _ _ _ 0 _ ?x] =>
      destruct (SendUnreliable_loop_queue recipient provider messageID blocks 0%nat x)
        as (Hq & Hl)
  end.
  rewrite Hq, Hl. cbn. by rewrite <- app_assoc.
Qed.

End SendingFacts.

Lemma Send_queues_every_block_witness :
  exists st',
    ClientSend.Send "alice" "provider" [1; 2; 3] ([9], None) (ClientSend.sending0 true)
      = (st', Some [9], None) /\
    ClientSend.sendQueue st'
      = foldl ClientSend.sq_Enqueue (ClientSend.sendQueue (ClientSend.sending0 true))
          (imap (fun i blk =>
                   Client.mkEgressBlock true "alice" "provider"
                     (Z.of_nat i mod 2 ^ 16) (Some [9]) blk
                     ClientSend.zero_time None [])
                [[1; 2]; [3]]) /\
    Client.surbKeyMap (ClientSend.sess st')
      = Client.surbKeyMap (ClientSend.sess (ClientSend.sending0 true)).
Proof.
  apply (Send_queues_every_block "alice" "provider" [1; 2; 3] [9] (Some [7; 7])
           [[1; 2]; [3]] (ClientSend.sending0 true)); reflexivity.
Defined.

Lemma SendUnreliable_queues_every_block_witness :
  exists st',
    ClientSend.SendUnreliable "bob" "provider" [1; 2; 3] ([9], None)
        (ClientSend.sending0 true)
      = (st', None) /\
    ClientSend.sendQueue st'
      = foldl ClientSend.sq_Enqueue (ClientSend.sendQueue (ClientSend.sending0 true))
          (imap (fun i blk =>
                   Client.mkEgressBlock false "bob" "provider"
                     (Z.of_nat i mod 2 ^ 16) (Some [9]) blk
                     ClientSend.zero_time None [])
                [[1; 2]; [3]]) /\
    Client.log (ClientSend.sess st')
      = Client.log (ClientSend.sess (ClientSend.sending0 true))
          ++ ["SendUnreliable"; "recipient key: %s"].
Proof.
  apply (SendUnreliable_queues_every_block "bob" "provider" [1; 2; 3] [9] (Some [8; 8])
           [[1; 2]; [3]] (ClientSend.sending0 true)).
  - reflexivity.
  - intros k _. reflexivity.
Defined.
